(** * hack/heartbeat_account.py: the boskos heartbeat loop

    A shallow embedding of the script that keeps a leased boskos resource
    in state [busy], and the properties of its behaviour.

    The script talks to the outside world in four ways: it reads the
    process environment, it drives [http.client] connections, it sleeps,
    and it may leave through [sys.exit] or an uncaught exception.  The
    embedding records every such call, in order, in a trace, and takes the
    answers of the lease service from an oracle.

    Python [str] values are modelled by [string], read as the UTF-8 bytes
    of the text; Python [int] by [Z].  A value of the environment is the
    bytes the process was given: where they are not well-formed UTF-8,
    Python holds a [str] with lone surrogates in their place, which
    behaves like the bytes until something encodes it strictly. *)

From Stdlib Require Import ZArith Ascii String List Lia.
From stdpp Require Import base gmap strings pretty.

Local Open Scope Z_scope.

(* stdpp freezes [String.append] under [simpl]; the proofs below unfold it. *)
#[local] Arguments String.append !_ _ / : simpl nomatch.

(** ** [urllib.parse]: the part of the standard library the script calls *)

Module UrlLib.

(** [_ALWAYS_SAFE]: the bytes [quote] never escapes. *)
Definition ALWAYS_SAFE : string :=
  "ABCDEFGHIJKLMNOPQRSTUVWXYZabcdefghijklmnopqrstuvwxyz0123456789_.-~".

(** [c in s] for a one-character [c]. *)
Fixpoint contains_char (c : ascii) (s : string) : bool :=
  match s with
  | EmptyString => false
  | String d s' => if Ascii.eqb c d then true else contains_char c s'
  end.

Definition hex_digits : string := "0123456789ABCDEF".

Definition hex_digit (n : nat) : ascii :=
  match String.get n hex_digits with
  | Some d => d
  | None => "0"%char
  end.

(** ['%{:02X}'.format(b)] *)
Definition percent_escape (c : ascii) : string :=
  let n := nat_of_ascii c in
  String "%" (String (hex_digit (n / 16)%nat)
                (String (hex_digit (n mod 16)%nat) EmptyString)).

(** [quote(string, safe)] on the encoded bytes ([quote_from_bytes]):
    every byte that is neither always safe nor listed in [safe] becomes
    its percent escape. *)
Fixpoint quote (s safe : string) : string :=
  match s with
  | EmptyString => EmptyString
  | String c s' =>
      (if contains_char c ALWAYS_SAFE || contains_char c safe
       then String c EmptyString
       else percent_escape c) +:+ quote s' safe
  end.

(** [str.replace(old, new)] for one-character [old] and [new]. *)
Fixpoint replace (old new : ascii) (s : string) : string :=
  match s with
  | EmptyString => EmptyString
  | String c s' =>
      String (if Ascii.eqb c old then new else c) (replace old new s')
  end.

(** [quote_plus(string)] with the default [safe='']. *)
Definition quote_plus (s : string) : string :=
  if negb (contains_char " " s) then quote s ""
  else replace " " "+" (quote s " ").

(** What [quote_plus] makes of one byte. *)
Definition plus_escape (c : ascii) : string :=
  if contains_char c ALWAYS_SAFE then String c EmptyString
  else if Ascii.eqb c " " then "+"
  else percent_escape c.

Fixpoint escape_all (s : string) : string :=
  match s with
  | EmptyString => EmptyString
  | String c s' => plus_escape c +:+ escape_all s'
  end.

(** ['&'.join(l)] and its generalisation to any separator. *)
Fixpoint join (sep : string) (l : list string) : string :=
  match l with
  | [] => EmptyString
  | [x] => x
  | x :: rest => x +:+ sep +:+ join sep rest
  end.

(** One item of a query, as [urlencode] writes it. *)
Definition field (kv : string * string) : string :=
  quote_plus (fst kv) +:+ "=" +:+ quote_plus (snd kv).

(** [urlencode(query)] for a dict given as its items in insertion
    order, the keys and values already encoded to bytes. *)
Definition urlencode (query : list (string * string)) : string :=
  join "&" (map field query).

(** *** From [str] to bytes

    [quote] on a [str] starts with [string.encode('utf-8', 'strict')];
    what is above is what it does with the bytes.  In the byte reading
    of [str] the encoding is the identity on well-formed UTF-8 and raises
    [UnicodeEncodeError] on anything else. *)

Definition in_range (lo hi : nat) (c : ascii) : bool :=
  let n := nat_of_ascii c in (lo <=? n)%nat && (n <=? hi)%nat.

(** The second byte of a sequence of three, by the first. *)
Definition second_of_three (b0 b1 : ascii) : bool :=
  if (nat_of_ascii b0 =? 224)%nat then in_range 160 191 b1
  else if (nat_of_ascii b0 =? 237)%nat then in_range 128 159 b1
  else in_range 128 191 b1.

(** The second byte of a sequence of four, by the first. *)
Definition second_of_four (b0 b1 : ascii) : bool :=
  if (nat_of_ascii b0 =? 240)%nat then in_range 144 191 b1
  else if (nat_of_ascii b0 =? 244)%nat then in_range 128 143 b1
  else in_range 128 191 b1.

(** Well-formed UTF-8: no stray or missing continuation byte, no
    overlong form, no surrogate, nothing above U+10FFFF. *)
Fixpoint well_formed_utf8 (s : string) : bool :=
  match s with
  | EmptyString => true
  | String b0 s1 =>
      if in_range 0 127 b0 then well_formed_utf8 s1
      else if in_range 194 223 b0 then
        match s1 with
        | String b1 s2 => in_range 128 191 b1 && well_formed_utf8 s2
        | _ => false
        end
      else if in_range 224 239 b0 then
        match s1 with
        | String b1 (String b2 s3) =>
            second_of_three b0 b1 && in_range 128 191 b2 && well_formed_utf8 s3
        | _ => false
        end
      else if in_range 240 244 b0 then
        match s1 with
        | String b1 (String b2 (String b3 s4)) =>
            second_of_four b0 b1 && in_range 128 191 b2 && in_range 128 191 b3
            && well_formed_utf8 s4
        | _ => false
        end
      else false
  end.

(** [string.encode('utf-8', 'strict')]; [None] is [UnicodeEncodeError]. *)
Definition encode_strict (s : string) : option string :=
  if well_formed_utf8 s then Some s else None.

(** [urlencode(query)] on a dict of [str], as the script calls it: each
    key and each value is encoded, in order, before it is quoted. *)
Definition urlencode_str (query : list (string * string)) : option string :=
  if forallb (fun kv => match encode_strict (fst kv), encode_strict (snd kv) with
                        | Some _, Some _ => true
                        | _, _ => false
                        end) query
  then Some (urlencode query)
  else None.

(** *** Reading a query string back

    What the receiving side does with the query string: split at [&],
    split each field at its first [=], undo the escaping
    ([parse_qsl] with [keep_blank_values]). *)

(** [s.split(sep)] for a one-character separator. *)
Fixpoint split (sep : ascii) (s : string) : list string :=
  match s with
  | EmptyString => [EmptyString]
  | String c s' =>
      if Ascii.eqb c sep then EmptyString :: split sep s'
      else match split sep s' with
           | [] => [String c EmptyString]
           | f :: fs => String c f :: fs
           end
  end.

(** [s.partition(sep)], without the separator itself. *)
Fixpoint partition (sep : ascii) (s : string) : string * string :=
  match s with
  | EmptyString => (EmptyString, EmptyString)
  | String c s' =>
      if Ascii.eqb c sep then (EmptyString, s')
      else let (a, b) := partition sep s' in (String c a, b)
  end.

Definition hex_value (c : ascii) : option nat :=
  let n := nat_of_ascii c in
  if (48 <=? n)%nat && (n <=? 57)%nat then Some (n - 48)%nat
  else if (65 <=? n)%nat && (n <=? 70)%nat then Some (n - 55)%nat
  else if (97 <=? n)%nat && (n <=? 102)%nat then Some (n - 87)%nat
  else None.

(** [unquote]: a [%] followed by two hex digits is one byte. *)
Fixpoint unquote (s : string) : string :=
  match s with
  | EmptyString => EmptyString
  | String c s' =>
      if Ascii.eqb c "%" then
        match s' with
        | String h (String l s'') =>
            match hex_value h, hex_value l with
            | Some a, Some b =>
                String (ascii_of_nat (16 * a + b)) (unquote s'')
            | _, _ => String c (unquote s')
            end
        | _ => String c (unquote s')
        end
      else String c (unquote s')
  end.

Definition unquote_plus (s : string) : string :=
  unquote (replace "+" " " s).

Definition parse_qsl (qs : string) : list (string * string) :=
  map (fun field =>
         let (k, v) := partition "=" field in
         (unquote_plus k, unquote_plus v))
      (split "&" qs).

End UrlLib.

(** ** [http.client]: what the constructor of a connection checks *)

Module HttpClient.

(** [s.rfind(c)]: the index of the last [c] in [s], -1 without one. *)
Fixpoint rfind_from (c : ascii) (s : string) (pos last : Z) : Z :=
  match s with
  | EmptyString => last
  | String d s' => rfind_from c s' (pos + 1) (if Ascii.eqb d c then pos else last)
  end.

Definition rfind (c : ascii) (s : string) : Z := rfind_from c s 0 (-1).

(** [s[from:]] and [s[:to]] for indices within [s], and [s[1:-1]]. *)
Definition slice_from (from : Z) (s : string) : string :=
  String.substring (Z.to_nat from) (String.length s - Z.to_nat from) s.

Definition slice_to (to : Z) (s : string) : string :=
  String.substring 0 (Z.to_nat to) s.

Definition strip_ends (s : string) : string :=
  String.substring 1 (String.length s - 2) s.

(** [s[-1]], for a string that has one. *)
Fixpoint last_char (s : string) : option ascii :=
  match s with
  | EmptyString => None
  | String c EmptyString => Some c
  | String _ s' => last_char s'
  end.

Definition default_port : Z := 80.

(** [host and host[0] == '[' and host[-1] == ']'] *)
Definition bracketed (host : string) : bool :=
  match host with
  | EmptyString => false
  | String c _ =>
      Ascii.eqb c "[" && match last_char host with
                         | Some d => Ascii.eqb d "]"
                         | None => false
                         end
  end.

(** [_contains_disallowed_url_pchar_re], the class [[\x00-\x20\x7f]]. *)
Definition disallowed_url_pchar (c : ascii) : bool :=
  let n := nat_of_ascii c in (n <=? 32)%nat || (n =? 127)%nat.

Fixpoint contains_disallowed (s : string) : bool :=
  match s with
  | EmptyString => false
  | String c s' => disallowed_url_pchar c || contains_disallowed s'
  end.

Section Builtins.

(** Python's [int] on a [str]: the number, or [None] for [ValueError].
    The builtin is no part of the script; it is taken as it comes. *)
Variable int : string -> option Z.

(** [_get_hostport(host, None)]; [None] is [InvalidURL]. *)
Definition get_hostport (host : string) : option (string * Z) :=
  let i := rfind ":" host in
  let j := rfind "]" host in
  let split :=
    if j <? i then
      match int (slice_from (i + 1) host) with
      | Some port => Some (slice_to i host, port)
      | None =>
          if String.eqb (slice_from (i + 1) host) EmptyString
          then Some (slice_to i host, default_port)
          else None
      end
    else Some (host, default_port) in
  match split with
  | Some (host', port) =>
      Some (if bracketed host' then strip_ends host' else host', port)
  | None => None
  end.

(** [_validate_host(host)]; [false] is [InvalidURL]. *)
Definition validate_host (host : string) : bool :=
  negb (contains_disallowed host).

(** The host and port of [HTTPConnection(host)], when it can be made. *)
Definition hostport (host : string) : option (string * Z) :=
  match get_hostport host with
  | Some (host', port) =>
      if validate_host host' then Some (host', port) else None
  | None => None
  end.

End Builtins.

End HttpClient.

(** ** The outside world *)

(** What the script reads of an [http.client.HTTPResponse]: the status
    code, the reason phrase, and the text [repr] gives for the object. *)
Record HTTPResponse := {
  status : Z;
  reason : string;
  repr : string;
}.

Inductive exception :=
| KeyError (key : string)     (* [os.environ[key]] *)
| InvalidURL                  (* the constructor of the connection *)
| UnicodeEncodeError          (* [urlencode] *)
| Error (class : string).     (* any other, by the name of its class *)

(** What comes of the exchange on one connection: [conn.request] raises
    (the library while it writes the request, or the network: refused,
    unresolved, reset), or [conn.getresponse] raises (timeout, reset,
    bad status line), or a response is read. *)
Inductive answer :=
| Answer (resp : HTTPResponse)
| RequestFails (e : exception)
| ResponseFails (e : exception).

(** The lease service and the network before it: what comes of the
    exchange on the n-th connection object the process creates, counted
    from 0. *)
Definition service := nat -> answer.

(** The calls the process makes, as an observer sees them. *)
Inductive event :=
| Connect (conn : nat) (host : string)        (* [httplib.HTTPConnection(host)] made *)
| Request (conn : nat) (method url : string)  (* [conn.request(method, url)] *)
| Response (conn : nat) (resp : HTTPResponse) (* [conn.getresponse()] returned *)
| NoResponse (conn : nat) (e : exception)     (* [conn.getresponse()] raised *)
| Close (conn : nat)                          (* [conn.close()] *)
| Sleep (secs : Z).                           (* [time.sleep(secs)] *)

(** ** Python statements as state transformers *)

Record process := {
  trace : list event;      (* oldest call first *)
  connections : nat;       (* connection objects created so far *)
}.

Inductive result (A : Type) :=
| Normal (a : A)
| SystemExit (msg : string)    (* [sys.exit(msg)] *)
| Raised (e : exception).      (* an exception nobody catches *)
Arguments Normal {A} a.
Arguments SystemExit {A} msg.
Arguments Raised {A} e.

Definition Py (A : Type) : Type := process -> result A * process.

Definition ret {A} (a : A) : Py A := fun p => (Normal a, p).

Definition bind {A B} (m : Py A) (k : A -> Py B) : Py B :=
  fun p =>
    match m p with
    | (Normal a, p') => k a p'
    | (SystemExit msg, p') => (SystemExit msg, p')
    | (Raised e, p') => (Raised e, p')
    end.

Notation "x <- m ;; k" := (bind m (fun x => k))
  (at level 20, m at level 99, k at level 200, only parsing).
Notation "m ;; k" := (bind m (fun _ => k))
  (at level 100, k at level 200, right associativity, only parsing).

Definition raise {A} (e : exception) : Py A := fun p => (Raised e, p).

Definition sys_exit {A} (msg : string) : Py A := fun p => (SystemExit msg, p).

Definition emit (e : event) : Py unit :=
  fun p => (Normal tt, {| trace := trace p ++ [e]; connections := connections p |}).

(** [os.environ.get(key, default)] *)
Definition environ_get (environ : gmap string string) (key default : string) : string :=
  match environ !! key with
  | Some v => v
  | None => default
  end.

(** [os.environ[key]] *)
Definition environ_getitem (environ : gmap string string) (key : string) : Py string :=
  match environ !! key with
  | Some v => ret v
  | None => raise (KeyError key)
  end.

Section Calls.

Variable int : string -> option Z.
Variable boskos : service.

(** [httplib.HTTPConnection(host)]: a new connection object, unless the
    constructor rejects the host with [InvalidURL].  No socket is opened
    before [request]. *)
Definition HTTPConnection (host : string) : Py nat :=
  fun p =>
    match HttpClient.hostport int host with
    | Some _ =>
        let conn := connections p in
        (Normal conn,
         {| trace := trace p ++ [Connect conn host]; connections := S conn |})
    | None => (Raised InvalidURL, p)
    end.

Definition request (conn : nat) (method url : string) : Py unit :=
  emit (Request conn method url) ;;
  match boskos conn with
  | RequestFails e => raise e
  | _ => ret tt
  end.

Definition getresponse (conn : nat) : Py HTTPResponse :=
  match boskos conn with
  | Answer resp => emit (Response conn resp) ;; ret resp
  | ResponseFails e => emit (NoResponse conn e) ;; raise e
  | RequestFails e => raise e
  end.

Definition close (conn : nat) : Py unit := emit (Close conn).

Definition sleep (secs : Z) : Py unit := emit (Sleep secs).

(** ** The script *)

Definition USER : string := "cluster-api-provider-gcp".

(** ["boskos: ... heartbeat: %d: %s, %r" % (resp.status, resp.reason, resp)] *)
Definition invalid_response (resp : HTTPResponse) : string :=
  "boskos: heartbeat_account: Got invalid response while sending heartbeat: "
  +:+ pretty (status resp) +:+ ": " +:+ reason resp +:+ ", " +:+ repr resp.

(** The target of a send, for a resource name that encodes. *)
Definition heartbeat_url (BOSKOS_RESOURCE_NAME : string) : string :=
  "/update?" +:+ UrlLib.urlencode [("name", BOSKOS_RESOURCE_NAME);
                                   ("state", "busy");
                                   ("owner", USER)].

(** ["/update?%s" % urlencode({...})], the argument of [conn.request]:
    it is built before the call, and [urlencode] can raise. *)
Definition heartbeat_target (BOSKOS_RESOURCE_NAME : string) : Py string :=
  match UrlLib.urlencode_str [("name", BOSKOS_RESOURCE_NAME);
                              ("state", "busy");
                              ("owner", USER)] with
  | Some query => ret ("/update?" +:+ query)
  | None => raise UnicodeEncodeError
  end.

(** The body of the [while]: one pass, from [count] to the value of
    [count] after it.  The body holds no assignment to [count]. *)
Definition loop_body (BOSKOS_HOST BOSKOS_RESOURCE_NAME : string) (count : Z) : Py Z :=
  conn <- HTTPConnection BOSKOS_HOST ;;
  url <- heartbeat_target BOSKOS_RESOURCE_NAME ;;
  request conn "POST" url ;;
  resp <- getresponse conn ;;
  (if negb (status resp =? 200)
   then sys_exit (invalid_response resp)
   else ret tt) ;;
  close conn ;;
  sleep 60 ;;
  ret count.

(** Where the [while] stands when it is looked at: still going round
    with this [count], or left with this [count]. *)
Inductive loop_state :=
| Looping (count : Z)
| Done (count : Z).

(** [while count < 180: body], run for at most [passes] passes. *)
Fixpoint while_loop (passes : nat) (BOSKOS_HOST BOSKOS_RESOURCE_NAME : string)
    (count : Z) : Py loop_state :=
  if count <? 180 then
    match passes with
    | O => ret (Looping count)
    | S passes' =>
        count' <- loop_body BOSKOS_HOST BOSKOS_RESOURCE_NAME count ;;
        while_loop passes' BOSKOS_HOST BOSKOS_RESOURCE_NAME count'
    end
  else ret (Done count).

(** The module body: the two reads of the environment, then the loop. *)
Definition main (environ : gmap string string) (passes : nat) : Py loop_state :=
  let BOSKOS_HOST := environ_get environ "BOSKOS_HOST" "boskos" in
  BOSKOS_RESOURCE_NAME <- environ_getitem environ "BOSKOS_RESOURCE_NAME" ;;
  let count := 0 in
  while_loop passes BOSKOS_HOST BOSKOS_RESOURCE_NAME count.

Definition start : process := {| trace := []; connections := 0 |}.

Definition run (environ : gmap string string) (passes : nat)
  : result loop_state * process :=
  main environ passes start.

End Calls.

(** The exit status of the process, once it has one: 0 when the module
    body runs to its end, 1 after [sys.exit] with a message and after an
    uncaught exception. *)
Definition exit_status (r : result loop_state) : option Z :=
  match r with
  | Normal (Looping _) => None
  | Normal (Done _) => Some 0
  | SystemExit _ => Some 1
  | Raised _ => Some 1
  end.

(** What [sys.exit(msg)] writes to the error stream. *)
Definition diagnostic (r : result loop_state) : option string :=
  match r with
  | SystemExit msg => Some msg
  | _ => None
  end.

(** ** Reading traces *)

Definition is_request (e : event) : bool :=
  match e with Request _ _ _ => true | _ => false end.

(** The number of sends in a trace. *)
Definition sends (t : list event) : nat := length (List.filter is_request t).

(** The connection a call is made on; [Sleep] is on none. *)
Definition conn_of (e : event) : option nat :=
  match e with
  | Connect c _ | Request c _ _ | Response c _ | NoResponse c _ | Close c =>
      Some c
  | Sleep _ => None
  end.

(** The value a query string gives to [key], as the receiving side
    reads it: the url is cut at its first [?], the rest parsed. *)
Fixpoint assoc (key : string) (items : list (string * string)) : option string :=
  match items with
  | [] => None
  | (k, v) :: rest => if String.eqb k key then Some v else assoc key rest
  end.

Definition query_of (url : string) : list (string * string) :=
  UrlLib.parse_qsl (snd (UrlLib.partition "?" url)).

Definition path_of (url : string) : string :=
  fst (UrlLib.partition "?" url).

(** The calls of one pass that the service accepts. *)
Definition pass_events (host name : string) (conn : nat) (resp : HTTPResponse)
  : list event :=
  [Connect conn host; Request conn "POST" (heartbeat_url name);
   Response conn resp; Close conn; Sleep 60].

(** The calls of a pass that ends the process, up to the last one made,
    by what came of the exchange. *)
Definition last_events (host name : string) (conn : nat) (a : answer)
  : list event :=
  [Connect conn host; Request conn "POST" (heartbeat_url name)]
  ++ match a with
     | Answer resp => [Response conn resp]
     | RequestFails _ => []
     | ResponseFails e => [NoResponse conn e]
     end.

(** The shape of what the loop does from connection [conn] on, for a
    host the constructor takes and a name that encodes: accepted passes,
    one after the other, until the passes run out or one fails.
    [while_loop_heartbeats] below shows every such run has this shape. *)
Inductive heartbeats (boskos : service) (host name : string)
  : nat -> list event -> result loop_state -> Prop :=
| hb_looping conn :
    heartbeats boskos host name conn [] (Normal (Looping 0))
| hb_pass conn resp t res :
    boskos conn = Answer resp -> status resp = 200 ->
    heartbeats boskos host name (S conn) t res ->
    heartbeats boskos host name conn (pass_events host name conn resp ++ t) res
| hb_rejected conn resp :
    boskos conn = Answer resp -> status resp <> 200 ->
    heartbeats boskos host name conn (last_events host name conn (Answer resp))
      (SystemExit (invalid_response resp))
| hb_request_fails conn e :
    boskos conn = RequestFails e ->
    heartbeats boskos host name conn (last_events host name conn (RequestFails e))
      (Raised e)
| hb_response_fails conn e :
    boskos conn = ResponseFails e ->
    heartbeats boskos host name conn (last_events host name conn (ResponseFails e))
      (Raised e).

(** The process after [n] more connections and the calls [t]. *)
Definition extend (p : process) (t : list event) (n : nat) : process :=
  {| trace := trace p ++ t; connections := connections p + n |}.

(** [x in s] for strings. *)
Definition occurs_in (x s : string) : Prop :=
  exists pre post, s = pre +:+ x +:+ post.

(** A service that answers every request with [200 OK]. *)
Definition ok_response : HTTPResponse :=
  {| status := 200; reason := "OK";
     repr := "<http.client.HTTPResponse object at 0x7f3a5c0d2e80>" |}.

Definition always_ok : service := fun _ => Answer ok_response.

(** A service that is unavailable on connection [n] and fine otherwise. *)
Definition unavailable : HTTPResponse :=
  {| status := 503; reason := "Service Unavailable";
     repr := "<http.client.HTTPResponse object at 0x7f3a5c0d2f10>" |}.

Definition unavailable_at (n : nat) : service :=
  fun conn => if (conn =? n)%nat then Answer unavailable else Answer ok_response.

(** What the script puts into a call, whichever pass makes it. *)
Definition from_script (host name : string) (e : event) : Prop :=
  match e with
  | Connect _ h => h = host
  | Request _ method url => method = "POST" /\ url = heartbeat_url name
  | Sleep secs => secs = 60
  | Response _ _ | NoResponse _ _ | Close _ => True
  end.

Definition accepts (boskos : service) (conn : nat) : Prop :=
  exists resp, boskos conn = Answer resp /\ status resp = 200.

(** The constructor of the connection takes the host. *)
Definition host_accepted (int : string -> option Z) (host : string) : bool :=
  match HttpClient.hostport int host with
  | Some _ => true
  | None => false
  end.

(** [urlencode] takes the resource name. *)
Definition encodable (name : string) : bool := UrlLib.well_formed_utf8 name.

(** A reading of [int] for the examples: one or more ASCII digits.
    Python's [int] takes these, and more. *)
Fixpoint digits_value (s : string) (acc : Z) : option Z :=
  match s with
  | EmptyString => Some acc
  | String c s' =>
      let n := nat_of_ascii c in
      if (48 <=? n)%nat && (n <=? 57)%nat
      then digits_value s' (10 * acc + Z.of_nat (n - 48))
      else None
  end.

Definition ascii_int (s : string) : option Z :=
  match s with
  | EmptyString => None
  | _ => digits_value s 0
  end.

(** The ways a run can go: no resource name; a host the constructor
    rejects; a name that does not encode; or the heartbeats. *)
Inductive run_case (int : string -> option Z) (boskos : service)
    (environ : gmap string string) (passes : nat) : Prop :=
| rc_unconfigured :
    environ !! "BOSKOS_RESOURCE_NAME" = None ->
    run int boskos environ passes = (Raised (KeyError "BOSKOS_RESOURCE_NAME"), start) ->
    run_case int boskos environ passes
| rc_host_rejected name :
    environ !! "BOSKOS_RESOURCE_NAME" = Some name ->
    host_accepted int (environ_get environ "BOSKOS_HOST" "boskos") = false ->
    run int boskos environ passes
    = (match passes with O => Normal (Looping 0) | S _ => Raised InvalidURL end,
       start) ->
    run_case int boskos environ passes
| rc_unencodable name :
    environ !! "BOSKOS_RESOURCE_NAME" = Some name ->
    host_accepted int (environ_get environ "BOSKOS_HOST" "boskos") = true ->
    encodable name = false ->
    run int boskos environ passes
    = match passes with
      | O => (Normal (Looping 0), start)
      | S _ => (Raised UnicodeEncodeError,
                {| trace := [Connect 0 (environ_get environ "BOSKOS_HOST" "boskos")];
                   connections := 1 |})
      end ->
    run_case int boskos environ passes
| rc_heartbeats name :
    environ !! "BOSKOS_RESOURCE_NAME" = Some name ->
    host_accepted int (environ_get environ "BOSKOS_HOST" "boskos") = true ->
    encodable name = true ->
    heartbeats boskos (environ_get environ "BOSKOS_HOST" "boskos") name 0
      (trace (snd (run int boskos environ passes)))
      (fst (run int boskos environ passes)) ->
    run_case int boskos environ passes.

(** ** Counting calls *)

Definition is_connect (e : event) : bool :=
  match e with Connect _ _ => true | _ => false end.

Definition is_close (e : event) : bool :=
  match e with Close _ => true | _ => false end.

Definition is_sleep (e : event) : bool :=
  match e with Sleep _ => true | _ => false end.

Definition connects (t : list event) : nat := length (List.filter is_connect t).
Definition closes (t : list event) : nat := length (List.filter is_close t).
Definition sleeps (t : list event) : nat := length (List.filter is_sleep t).

(** The seconds the process has asked to sleep, all in all. *)
Fixpoint slept (t : list event) : Z :=
  match t with
  | [] => 0
  | Sleep secs :: t' => secs + slept t'
  | _ :: t' => slept t'
  end.

(** ** Characters of a url *)

Fixpoint all_chars (f : ascii -> bool) (s : string) : bool :=
  match s with
  | EmptyString => true
  | String c s' => f c && all_chars f s'
  end.

(** The bytes [quote] leaves alone. *)
Definition safe_char (c : ascii) : bool :=
  UrlLib.contains_char c UrlLib.ALWAYS_SAFE.

(** The bytes a request target is made of: the safe ones, the escape
    marks [%] and [+], and the separators of path and query. *)
Definition url_char (c : ascii) : bool :=
  safe_char c || UrlLib.contains_char c "%+&=?/".

Example urlencode_ex :
  UrlLib.urlencode [("name", "gcp project/1"); ("state", "busy")]
  = "name=gcp+project%2F1&state=busy".
Proof. reflexivity. Qed.

Example parse_qsl_ex :
  UrlLib.parse_qsl "name=gcp+project%2F1&state=busy"
  = [("name", "gcp project/1"); ("state", "busy")].
Proof. reflexivity. Qed.

Example run_3 :
  let '(r, p) := run ascii_int always_ok {["BOSKOS_RESOURCE_NAME" := "proj"]} 3 in
  r = Normal (Looping 0) /\ sends (trace p) = 3%nat.
Proof. vm_compute. split; reflexivity. Qed.

(** ** Properties of the URL encoding *)

Module UrlFacts.
Import UrlLib.

Ltac each_byte c := destruct c as [[] [] [] [] [] [] [] []].

Lemma append_assoc (a b c : string) : (a +:+ b) +:+ c = a +:+ b +:+ c.
Proof. induction a as [|x a IH]; simpl; [reflexivity | now rewrite IH]. Qed.

Lemma replace_append old new (a b : string) :
  replace old new (a +:+ b) = replace old new a +:+ replace old new b.
Proof. induction a as [|x a IH]; simpl; [reflexivity | now rewrite IH]. Qed.

Lemma contains_char_append c (a b : string) :
  contains_char c (a +:+ b) = contains_char c a || contains_char c b.
Proof.
  induction a as [|x a IH]; simpl; [reflexivity |].
  destruct (Ascii.eqb c x); [reflexivity | exact IH].
Qed.

(** Without a space in it, a string is quoted byte by byte. *)
Lemma quote_no_space (s : string) :
  contains_char " " s = false -> quote s "" = escape_all s.
Proof.
  induction s as [|c s IH]; cbn [contains_char quote escape_all];
    [reflexivity |].
  destruct (Ascii.eqb " " c) eqn:E; intros H; [discriminate |].
  rewrite (IH H). f_equal.
  unfold plus_escape. cbn [contains_char]. rewrite orb_false_r.
  destruct (contains_char c ALWAYS_SAFE); [reflexivity |].
  rewrite Ascii.eqb_sym, E. reflexivity.
Qed.

(** With the space kept safe and then replaced, the same. *)
Lemma quote_space_replaced (s : string) :
  replace " " "+" (quote s " ") = escape_all s.
Proof.
  induction s as [|c s IH]; simpl; [reflexivity |].
  rewrite replace_append, IH. f_equal.
  each_byte c; reflexivity.
Qed.

Lemma quote_plus_escape_all (s : string) : quote_plus s = escape_all s.
Proof.
  unfold quote_plus. destruct (contains_char " " s) eqn:E; simpl.
  - apply quote_space_replaced.
  - now apply quote_no_space.
Qed.

(** The escaped form of a byte holds neither [&] nor [=] nor [?]. *)
Lemma plus_escape_clean (c : ascii) :
  contains_char "&" (plus_escape c) = false
  /\ contains_char "=" (plus_escape c) = false
  /\ contains_char "?" (plus_escape c) = false.
Proof. each_byte c; repeat split; reflexivity. Qed.

Lemma quote_plus_clean (s : string) :
  contains_char "&" (quote_plus s) = false
  /\ contains_char "=" (quote_plus s) = false
  /\ contains_char "?" (quote_plus s) = false.
Proof.
  rewrite quote_plus_escape_all.
  induction s as [|c s (IH1 & IH2 & IH3)]; simpl; [repeat split; reflexivity |].
  rewrite !contains_char_append, IH1, IH2, IH3.
  destruct (plus_escape_clean c) as (-> & -> & ->). repeat split; reflexivity.
Qed.

(** Unquoting undoes the escaping of one byte, whatever follows. *)
Lemma unquote_plus_escape (c : ascii) (rest : string) :
  unquote_plus (plus_escape c +:+ rest) = String c (unquote_plus rest).
Proof. unfold unquote_plus. each_byte c; reflexivity. Qed.

Lemma unquote_plus_quote_plus (s : string) : unquote_plus (quote_plus s) = s.
Proof.
  rewrite quote_plus_escape_all.
  induction s as [|c s IH]; simpl; [reflexivity |].
  now rewrite unquote_plus_escape, IH.
Qed.

Lemma split_clean sep (a : string) :
  contains_char sep a = false -> split sep a = [a].
Proof.
  induction a as [|x a IH]; cbn [contains_char split]; [reflexivity |].
  rewrite (Ascii.eqb_sym x sep).
  destruct (Ascii.eqb sep x); intros H; [discriminate |].
  now rewrite (IH H).
Qed.

Lemma split_at_first sep (a b : string) :
  contains_char sep a = false ->
  split sep (a +:+ String sep b) = a :: split sep b.
Proof.
  induction a as [|x a IH]; cbn [contains_char split String.append].
  - now rewrite Ascii.eqb_refl.
  - rewrite (Ascii.eqb_sym x sep).
    destruct (Ascii.eqb sep x); intros H; [discriminate |].
    now rewrite (IH H).
Qed.

Lemma partition_at_first sep (a b : string) :
  contains_char sep a = false ->
  partition sep (a +:+ String sep b) = (a, b).
Proof.
  induction a as [|x a IH]; cbn [contains_char partition String.append].
  - now rewrite Ascii.eqb_refl.
  - rewrite (Ascii.eqb_sym x sep).
    destruct (Ascii.eqb sep x); intros H; [discriminate |].
    now rewrite (IH H).
Qed.

Lemma field_clean kv : contains_char "&" (field kv) = false.
Proof.
  unfold field. rewrite !contains_char_append.
  destruct (quote_plus_clean (fst kv)) as (-> & _).
  destruct (quote_plus_clean (snd kv)) as (-> & _). reflexivity.
Qed.

Lemma parse_field kv :
  (let (k, v) := partition "=" (field kv) in (unquote_plus k, unquote_plus v)) = kv.
Proof.
  unfold field. simpl.
  rewrite partition_at_first by apply quote_plus_clean.
  rewrite !unquote_plus_quote_plus. now destruct kv.
Qed.

(** A query of at least one item reads back as it was written. *)
Lemma parse_qsl_urlencode (kv : string * string) (query : list (string * string)) :
  parse_qsl (urlencode (kv :: query)) = kv :: query.
Proof.
  unfold parse_qsl, urlencode.
  revert kv. induction query as [|kv' query IH]; intros kv.
  - simpl. rewrite split_clean by apply field_clean.
    simpl. now rewrite parse_field.
  - change (join "&" (map field (kv :: kv' :: query)))
      with (field kv +:+ String "&" (join "&" (map field (kv' :: query)))).
    rewrite split_at_first by apply field_clean.
    rewrite map_cons, IH. now rewrite parse_field.
Qed.

End UrlFacts.

(** ** One pass of the loop, and all of them *)

(** The three items of the script's query encode when the name does. *)
Lemma urlencode_str_name (name : string) :
  UrlLib.urlencode_str [("name", name); ("state", "busy"); ("owner", USER)]
  = if encodable name
    then Some (UrlLib.urlencode [("name", name); ("state", "busy"); ("owner", USER)])
    else None.
Proof.
  unfold UrlLib.urlencode_str, UrlLib.encode_strict, encodable.
  cbn [forallb fst snd].
  change (UrlLib.well_formed_utf8 "name") with true.
  change (UrlLib.well_formed_utf8 "state") with true.
  change (UrlLib.well_formed_utf8 "busy") with true.
  change (UrlLib.well_formed_utf8 "owner") with true.
  change (UrlLib.well_formed_utf8 USER) with true.
  now destruct (UrlLib.well_formed_utf8 name).
Qed.

Lemma heartbeat_target_eq (name : string) (p : process) :
  heartbeat_target name p
  = if encodable name then (Normal (heartbeat_url name), p)
    else (Raised UnicodeEncodeError, p).
Proof.
  unfold heartbeat_target. rewrite urlencode_str_name.
  now destruct (encodable name).
Qed.

Lemma extend_extend p t1 n1 t2 n2 :
  extend (extend p t1 n1) t2 n2 = extend p (t1 ++ t2) (n1 + n2).
Proof.
  unfold extend. cbn [trace connections]. f_equal.
  - now rewrite app_assoc.
  - lia.
Qed.

Lemma extend_nil p : extend p [] 0 = p.
Proof.
  unfold extend. rewrite app_nil_r, Nat.add_0_r. now destruct p.
Qed.

Lemma sends_app (t1 t2 : list event) : sends (t1 ++ t2) = (sends t1 + sends t2)%nat.
Proof. unfold sends. now rewrite List.filter_app, length_app. Qed.

(** What one pass does: by the host, by the name, and then by what
    comes of the exchange. *)
Lemma loop_body_eq (int : string -> option Z) (boskos : service)
    (host name : string) (count : Z) (p : process) :
  loop_body int boskos host name count p =
  let conn := connections p in
  if host_accepted int host then
    if encodable name then
      match boskos conn with
      | Answer resp =>
          if status resp =? 200
          then (Normal count, extend p (pass_events host name conn resp) 1)
          else (SystemExit (invalid_response resp),
                extend p (last_events host name conn (Answer resp)) 1)
      | RequestFails e =>
          (Raised e, extend p (last_events host name conn (RequestFails e)) 1)
      | ResponseFails e =>
          (Raised e, extend p (last_events host name conn (ResponseFails e)) 1)
      end
    else (Raised UnicodeEncodeError, extend p [Connect conn host] 1)
  else (Raised InvalidURL, p).
Proof.
  unfold loop_body, bind at 1, HTTPConnection, host_accepted.
  destruct (HttpClient.hostport int host) as [hp|]; [|reflexivity].
  unfold bind at 1. rewrite heartbeat_target_eq.
  cbn zeta. unfold extend. cbn [trace connections]. rewrite Nat.add_1_r.
  destruct (encodable name); [|reflexivity].
  unfold bind, request, getresponse, close, sleep, emit, bind, ret, raise,
    sys_exit, pass_events, last_events.
  cbn [trace connections].
  destruct (boskos (connections p)) as [resp|e|e]; cbn [trace connections].
  - destruct (status resp =? 200); cbn [negb trace connections];
      rewrite <- ?app_assoc; reflexivity.
  - rewrite <- ?app_assoc; reflexivity.
  - rewrite <- ?app_assoc; reflexivity.
Qed.

(** A pass never changes the counter. *)
Lemma loop_body_count (int : string -> option Z) (boskos : service)
    (host name : string) (count count' : Z) (p p' : process) :
  loop_body int boskos host name count p = (Normal count', p') -> count' = count.
Proof.
  rewrite loop_body_eq. cbn zeta.
  destruct (host_accepted int host); [|discriminate].
  destruct (encodable name); [|discriminate].
  destruct (boskos (connections p)) as [resp|e|e]; [|discriminate..].
  destruct (status resp =? 200); [|discriminate].
  now intros [= <- _].
Qed.

Section Loop.

Variable int : string -> option Z.
Variable boskos : service.
Variables host name : string.

(** The constructor takes the host and the name encodes. *)
Hypothesis host_ok : host_accepted int host = true.
Hypothesis name_ok : encodable name = true.

(** One more pass of the loop, from counter 0. *)
Lemma while_loop_step (passes : nat) (p : process) :
  while_loop int boskos (S passes) host name 0 p =
  let conn := connections p in
  match boskos conn with
  | Answer resp =>
      if status resp =? 200
      then while_loop int boskos passes host name 0
             (extend p (pass_events host name conn resp) 1)
      else (SystemExit (invalid_response resp),
            extend p (last_events host name conn (Answer resp)) 1)
  | RequestFails e =>
      (Raised e, extend p (last_events host name conn (RequestFails e)) 1)
  | ResponseFails e =>
      (Raised e, extend p (last_events host name conn (ResponseFails e)) 1)
  end.
Proof.
  cbn [while_loop]. change (0 <? 180) with true. cbv iota.
  unfold bind. rewrite loop_body_eq, host_ok, name_ok. cbn zeta.
  destruct (boskos (connections p)) as [resp|e|e]; try reflexivity.
  destruct (status resp =? 200); reflexivity.
Qed.

(** Every run of the loop from counter 0 has the shape [heartbeats]. *)
Lemma while_loop_heartbeats (passes : nat) (p : process) :
  exists t n,
    snd (while_loop int boskos passes host name 0 p) = extend p t n
    /\ heartbeats boskos host name (connections p) t
         (fst (while_loop int boskos passes host name 0 p)).
Proof.
  revert p. induction passes as [|passes IH]; intros p.
  - exists [], 0%nat. split; [|constructor].
    unfold extend. cbn. rewrite app_nil_r, Nat.add_0_r. now destruct p.
  - rewrite while_loop_step. cbn zeta.
    destruct (boskos (connections p)) as [resp|e|e] eqn:B.
    + destruct (status resp =? 200) eqn:Hs.
      * destruct (IH (extend p (pass_events host name (connections p) resp) 1))
          as (t & n & E & H).
        eexists _, _. split.
        { rewrite E. apply extend_extend. }
        apply Z.eqb_eq in Hs.
        eapply hb_pass; eauto.
        unfold extend in H at 1. cbn [connections] in H.
        now rewrite Nat.add_1_r in H.
      * eexists _, _. split; [reflexivity |].
        apply Z.eqb_neq in Hs. now constructor.
    + eexists _, _. split; [reflexivity |]. now constructor.
    + eexists _, _. split; [reflexivity |]. now constructor.
Qed.

(** As long as the service accepts, the loop goes on: [n] accepted
    passes are [n] sends and leave the rest of the passes to run. *)
Lemma while_loop_accepted (n m : nat) (p : process) :
  (forall j, (j < n)%nat -> accepts boskos (connections p + j)) ->
  exists t,
    while_loop int boskos (n + m) host name 0 p
    = while_loop int boskos m host name 0 (extend p t n)
    /\ sends t = n.
Proof.
  revert p. induction n as [|n IH]; intros p A.
  - exists []. now rewrite extend_nil.
  - destruct (A 0%nat) as (resp & B & Hs); [lia |].
    rewrite Nat.add_0_r in B.
    cbn [Nat.add]. rewrite while_loop_step. cbn zeta.
    rewrite B, Hs. cbn [Z.eqb Pos.eqb].
    destruct (IH (extend p (pass_events host name (connections p) resp) 1))
      as (t & E & Ht).
    { intros j Hj. unfold extend. cbn [connections].
      replace (connections p + 1 + j)%nat with (connections p + S j)%nat by lia.
      apply A. lia. }
    eexists. split.
    + rewrite E, extend_extend. reflexivity.
    + rewrite sends_app, Ht. reflexivity.
Qed.

End Loop.

(** The loop with a host the constructor rejects: the first pass ends
    the process before any call. *)
Lemma while_loop_host_rejected (int : string -> option Z) (boskos : service)
    (host name : string) (passes : nat) (p : process) :
  host_accepted int host = false ->
  while_loop int boskos (S passes) host name 0 p = (Raised InvalidURL, p).
Proof.
  intros H. cbn [while_loop]. change (0 <? 180) with true. cbv iota.
  unfold bind. now rewrite loop_body_eq, H.
Qed.

(** The loop with a name that does not encode: the first pass makes the
    connection object and ends the process before the send. *)
Lemma while_loop_unencodable (int : string -> option Z) (boskos : service)
    (host name : string) (passes : nat) (p : process) :
  host_accepted int host = true -> encodable name = false ->
  while_loop int boskos (S passes) host name 0 p
  = (Raised UnicodeEncodeError, extend p [Connect (connections p) host] 1).
Proof.
  intros H N. cbn [while_loop]. change (0 <? 180) with true. cbv iota.
  unfold bind. now rewrite loop_body_eq, H, N.
Qed.

(** ** The whole process *)

Section Process.

Variable int : string -> option Z.
Variable boskos : service.
Variable environ : gmap string string.

Lemma run_configured (name : string) (passes : nat) :
  environ !! "BOSKOS_RESOURCE_NAME" = Some name ->
  run int boskos environ passes
  = while_loop int boskos passes (environ_get environ "BOSKOS_HOST" "boskos")
      name 0 start.
Proof.
  intros E. unfold run, main, environ_getitem, bind. now rewrite E.
Qed.

Lemma run_unconfigured (passes : nat) :
  environ !! "BOSKOS_RESOURCE_NAME" = None ->
  run int boskos environ passes = (Raised (KeyError "BOSKOS_RESOURCE_NAME"), start).
Proof.
  intros E. unfold run, main, environ_getitem, bind. now rewrite E.
Qed.

(** The trace of a run that gets to its sends has the shape
    [heartbeats]. *)
Lemma run_heartbeats (name : string) (passes : nat) :
  environ !! "BOSKOS_RESOURCE_NAME" = Some name ->
  host_accepted int (environ_get environ "BOSKOS_HOST" "boskos") = true ->
  encodable name = true ->
  heartbeats boskos (environ_get environ "BOSKOS_HOST" "boskos") name 0
    (trace (snd (run int boskos environ passes)))
    (fst (run int boskos environ passes)).
Proof.
  intros E H N. rewrite (run_configured name) by exact E.
  destruct (while_loop_heartbeats int boskos
              (environ_get environ "BOSKOS_HOST" "boskos") name H N passes start)
    as (t & n & -> & S).
  exact S.
Qed.

Lemma run_cases (passes : nat) : run_case int boskos environ passes.
Proof.
  destruct (environ !! "BOSKOS_RESOURCE_NAME") as [name|] eqn:E.
  - destruct (host_accepted int (environ_get environ "BOSKOS_HOST" "boskos")) eqn:H.
    + destruct (encodable name) eqn:N.
      * eapply rc_heartbeats; eauto using run_heartbeats.
      * eapply rc_unencodable; eauto.
        rewrite (run_configured name) by exact E.
        destruct passes; [reflexivity |].
        now rewrite while_loop_unencodable.
    + eapply rc_host_rejected; eauto.
      rewrite (run_configured name) by exact E.
      destruct passes; [reflexivity |].
      now rewrite while_loop_host_rejected.
  - eapply rc_unconfigured; eauto using run_unconfigured.
Qed.

End Process.

Lemma heartbeats_normal (boskos : service) (host name : string)
    (conn : nat) (t : list event) (st : loop_state) :
  heartbeats boskos host name conn t (Normal st) -> st = Looping 0.
Proof.
  intros H. remember (Normal st) as res eqn:Hres.
  induction H; try discriminate; auto.
  now injection Hres as <-.
Qed.

(** A run that has not failed is still in the loop, counter at 0. *)
Lemma run_normal_looping (int : string -> option Z) (boskos : service)
    (environ : gmap string string) (passes : nat) (st : loop_state) :
  fst (run int boskos environ passes) = Normal st -> st = Looping 0.
Proof.
  intros R.
  destruct (run_cases int boskos environ passes) as [E X|name E H X|name E H N X|name E H N X].
  - rewrite X in R. discriminate.
  - rewrite X in R. destruct passes; cbn in R; congruence.
  - rewrite X in R. destruct passes; cbn in R; congruence.
  - rewrite R in X. eapply heartbeats_normal, X.
Qed.

(** ** The bounded run: the counter and the 180 passes *)

(** C1 (the code departs from it): if every send receives a 200 response,
    the loop is meant to perform exactly 180 sends and the process to exit
    with status 0.  The script does not: with a host the constructor
    takes and a resource name that encodes, whatever number of passes it
    is given, it makes that many sends, the 181st among them, and is
    still looping with its counter at 0, without an exit status. *)
Theorem all_accepted_never_exits (int : string -> option Z) (boskos : service)
    (environ : gmap string string)
    (name : string) (passes : nat) :
  environ !! "BOSKOS_RESOURCE_NAME" = Some name ->
  host_accepted int (environ_get environ "BOSKOS_HOST" "boskos") = true ->
  encodable name = true ->
  (forall conn, accepts boskos conn) ->
  fst (run int boskos environ passes) = Normal (Looping 0)
  /\ exit_status (fst (run int boskos environ passes)) = None
  /\ sends (trace (snd (run int boskos environ passes))) = passes.
Proof.
  intros E H N A. rewrite (run_configured int boskos environ name) by exact E.
  destruct (while_loop_accepted int boskos
              (environ_get environ "BOSKOS_HOST" "boskos") name H N passes 0 start)
    as (t & R & Ht).
  { intros j _. apply A. }
  rewrite Nat.add_0_r in R. rewrite R. cbn.
  repeat split. exact Ht.
Qed.

Lemma all_accepted_never_exits_181 :
  let environ : gmap string string := {["BOSKOS_RESOURCE_NAME" := "gcp-project"]} in
  environ !! "BOSKOS_RESOURCE_NAME" = Some "gcp-project"
  /\ host_accepted ascii_int (environ_get environ "BOSKOS_HOST" "boskos") = true
  /\ encodable "gcp-project" = true
  /\ (forall conn, accepts always_ok conn)
  /\ fst (run ascii_int always_ok environ 181) = Normal (Looping 0)
  /\ exit_status (fst (run ascii_int always_ok environ 181)) = None
  /\ sends (trace (snd (run ascii_int always_ok environ 181))) = 181%nat.
Proof.
  intros environ.
  assert (E : environ !! "BOSKOS_RESOURCE_NAME" = Some "gcp-project") by reflexivity.
  assert (H : host_accepted ascii_int (environ_get environ "BOSKOS_HOST" "boskos")
              = true) by reflexivity.
  assert (N : encodable "gcp-project" = true) by reflexivity.
  assert (A : forall conn, accepts always_ok conn).
  { intros conn. exists ok_response. split; reflexivity. }
  split; [exact E |]. split; [exact H |]. split; [exact N |]. split; [exact A |].
  exact (all_accepted_never_exits ascii_int always_ok environ "gcp-project" 181 E H N A).
Defined.

(** C2 (the code departs from it): the counter is meant to start at 0 and
    to go up by one on each pass until it reaches 180.  In the script it
    starts at 0 and no pass changes it: a pass that comes to its end
    leaves the counter as it found it, and a run that has not failed is
    still in the loop with the counter at 0, after any number of passes. *)
Theorem counter_never_incremented (int : string -> option Z) (boskos : service)
    (environ : gmap string string) (passes : nat) (st : loop_state) :
  fst (run int boskos environ passes) = Normal st ->
  st = Looping 0
  /\ forall host name count p count' p',
       loop_body int boskos host name count p = (Normal count', p') -> count' = count.
Proof.
  intros R. split.
  - now apply (run_normal_looping int boskos environ passes).
  - intros host name count p count' p'. apply loop_body_count.
Qed.

Lemma counter_never_incremented_after_one_pass :
  fst (run ascii_int always_ok {["BOSKOS_RESOURCE_NAME" := "gcp-project"]} 1)
  = Normal (Looping 0)
  /\ (Looping 0 = Looping 0
      /\ forall host name count p count' p',
           loop_body ascii_int always_ok host name count p = (Normal count', p') ->
           count' = count).
Proof.
  split; [reflexivity |].
  exact (counter_never_incremented ascii_int always_ok
           {["BOSKOS_RESOURCE_NAME" := "gcp-project"]} 1 (Looping 0) eq_refl).
Defined.

(** ** Leaving the loop *)

Lemma append_empty_r (s : string) : s +:+ "" = s.
Proof. induction s as [|c s IH]; simpl; [reflexivity | now rewrite IH]. Qed.

(** The diagnostic holds the status code, the reason phrase and the
    representation of the response. *)
Lemma invalid_response_contents (resp : HTTPResponse) :
  occurs_in (pretty (status resp)) (invalid_response resp)
  /\ occurs_in (reason resp) (invalid_response resp)
  /\ occurs_in (repr resp) (invalid_response resp).
Proof.
  unfold invalid_response.
  set (head := "boskos: heartbeat_account: Got invalid response while sending heartbeat: ").
  repeat split.
  - exists head, (": " +:+ reason resp +:+ ", " +:+ repr resp). reflexivity.
  - exists (head +:+ pretty (status resp) +:+ ": "), (", " +:+ repr resp).
    now rewrite !UrlFacts.append_assoc.
  - exists (head +:+ pretty (status resp) +:+ ": " +:+ reason resp +:+ ", "), "".
    now rewrite !UrlFacts.append_assoc, append_empty_r.
Qed.

(** The loop at the first response that is not a 200: [n] accepted
    passes, then the pass that ends the process. *)
Lemma while_loop_rejected (int : string -> option Z) (boskos : service)
    (host name : string) (n m : nat) (resp : HTTPResponse) (p : process) :
  host_accepted int host = true -> encodable name = true ->
  (forall j, (j < n)%nat -> accepts boskos (connections p + j)) ->
  boskos (connections p + n)%nat = Answer resp ->
  status resp <> 200 ->
  exists t,
    while_loop int boskos (n + S m) host name 0 p
    = (SystemExit (invalid_response resp),
       extend p (t ++ last_events host name (connections p + n) (Answer resp)) (S n))
    /\ sends t = n.
Proof.
  intros H N A B Hs.
  destruct (while_loop_accepted int boskos host name H N n (S m) p A) as (t & R & Ht).
  exists t. split; [|exact Ht].
  rewrite R, while_loop_step by assumption. cbn zeta.
  unfold extend at 1 3. cbn [connections]. rewrite B.
  apply Z.eqb_neq in Hs. rewrite Hs.
  rewrite extend_extend, Nat.add_1_r. reflexivity.
Qed.

(** C3: for every k from 1 to 180, if the k-th send is the first whose
    response is not a 200, then the process, given at least k passes,
    makes exactly k sends, the last call it makes is reading that
    response, and it exits with a non-zero status and a diagnostic that
    holds the status code, the reason phrase and the representation of
    the response.  There is a k-th send only for a host the constructor
    of the connection takes and a resource name that encodes. *)
Theorem first_rejection_exits (int : string -> option Z) (boskos : service)
    (environ : gmap string string)
    (name : string) (k passes : nat) (resp : HTTPResponse) :
  environ !! "BOSKOS_RESOURCE_NAME" = Some name ->
  host_accepted int (environ_get environ "BOSKOS_HOST" "boskos") = true ->
  encodable name = true ->
  (1 <= k <= 180)%nat ->
  (forall j, (j < k - 1)%nat -> accepts boskos j) ->
  boskos (k - 1)%nat = Answer resp ->
  status resp <> 200 ->
  (k <= passes)%nat ->
  let r := fst (run int boskos environ passes) in
  let t := trace (snd (run int boskos environ passes)) in
  sends t = k
  /\ last t = Some (Response (k - 1) resp)
  /\ (exists code, exit_status r = Some code /\ code <> 0)
  /\ (exists msg, diagnostic r = Some msg
                 /\ occurs_in (pretty (status resp)) msg
                 /\ occurs_in (reason resp) msg
                 /\ occurs_in (repr resp) msg).
Proof.
  intros E H N [K1 _] A B Hs Hp. cbn zeta.
  rewrite (run_configured int boskos environ name) by exact E.
  destruct (while_loop_rejected int boskos
              (environ_get environ "BOSKOS_HOST" "boskos") name
              (k - 1) (passes - k) resp start) as (t & R & Ht); auto.
  replace (k - 1 + S (passes - k))%nat with passes in R by lia.
  rewrite R. cbn [fst snd extend trace start connections app Nat.add].
  repeat split.
  - rewrite sends_app, Ht. cbn. lia.
  - unfold last_events. rewrite app_assoc. apply last_snoc.
  - exists 1. split; [reflexivity | lia].
  - exists (invalid_response resp). split; [reflexivity |].
    apply invalid_response_contents.
Qed.

Lemma first_rejection_exits_third_send :
  let boskos := unavailable_at 2 in
  let environ : gmap string string := {["BOSKOS_RESOURCE_NAME" := "gcp-project"]} in
  let r := fst (run ascii_int boskos environ 5) in
  let t := trace (snd (run ascii_int boskos environ 5)) in
  (host_accepted ascii_int (environ_get environ "BOSKOS_HOST" "boskos") = true
   /\ encodable "gcp-project" = true)
  /\ sends t = 3%nat
  /\ last t = Some (Response 2 unavailable)
  /\ (exists code, exit_status r = Some code /\ code <> 0)
  /\ (exists msg, diagnostic r = Some msg
                 /\ occurs_in (pretty (status unavailable)) msg
                 /\ occurs_in (reason unavailable) msg
                 /\ occurs_in (repr unavailable) msg).
Proof.
  split; [split; reflexivity |].
  apply (first_rejection_exits ascii_int (unavailable_at 2)
           {["BOSKOS_RESOURCE_NAME" := "gcp-project"]} "gcp-project" 3 5 unavailable).
  - reflexivity.
  - reflexivity.
  - reflexivity.
  - lia.
  - intros j Hj. exists ok_response.
    destruct j as [|[|j]]; [split; reflexivity .. | simpl in Hj; lia].
  - reflexivity.
  - discriminate.
  - lia.
Defined.

Example third_send_diagnostic :
  diagnostic (fst (run ascii_int (unavailable_at 2) {["BOSKOS_RESOURCE_NAME" := "gcp-project"]} 5))
  = Some ("boskos: heartbeat_account: Got invalid response while sending heartbeat: "
          +:+ "503: Service Unavailable, "
          +:+ "<http.client.HTTPResponse object at 0x7f3a5c0d2f10>").
Proof. vm_compute. reflexivity. Qed.

(** ** The configuration *)

(** C5: without the resource-name variable in the environment the process
    ends at startup on the uncaught [KeyError], with a non-zero status,
    having made no call at all: no connection, no send. *)
Theorem missing_resource_name_no_call (int : string -> option Z) (boskos : service)
    (environ : gmap string string) (passes : nat) :
  environ !! "BOSKOS_RESOURCE_NAME" = None ->
  fst (run int boskos environ passes) = Raised (KeyError "BOSKOS_RESOURCE_NAME")
  /\ exit_status (fst (run int boskos environ passes)) = Some 1
  /\ trace (snd (run int boskos environ passes)) = []
  /\ sends (trace (snd (run int boskos environ passes))) = 0%nat.
Proof.
  intros E. rewrite run_unconfigured by exact E.
  repeat split.
Qed.

Lemma missing_resource_name_no_call_host_only :
  let environ : gmap string string := {["BOSKOS_HOST" := "boskos.test-pods"]} in
  fst (run ascii_int always_ok environ 180) = Raised (KeyError "BOSKOS_RESOURCE_NAME")
  /\ exit_status (fst (run ascii_int always_ok environ 180)) = Some 1
  /\ trace (snd (run ascii_int always_ok environ 180)) = []
  /\ sends (trace (snd (run ascii_int always_ok environ 180))) = 0%nat.
Proof.
  apply (missing_resource_name_no_call ascii_int always_ok
           {["BOSKOS_HOST" := "boskos.test-pods"]} 180).
  reflexivity.
Defined.

(** Every call of a run carries what the script puts into it. *)
Lemma heartbeats_from_script (boskos : service) (host name : string)
    (conn : nat) (t : list event) (res : result loop_state) :
  heartbeats boskos host name conn t res -> Forall (from_script host name) t.
Proof.
  induction 1 as [conn|conn resp t res B Hs H IH|conn resp B Hs|conn x B|conn x B].
  - constructor.
  - unfold pass_events. repeat (constructor; [now cbn |]). exact IH.
  - unfold last_events. repeat (constructor; [now cbn |]). constructor.
  - unfold last_events. repeat (constructor; [now cbn |]). constructor.
  - unfold last_events. repeat (constructor; [now cbn |]). constructor.
Qed.

Lemma run_from_script (int : string -> option Z) (boskos : service)
    (environ : gmap string string)
    (passes : nat) (e : event) :
  In e (trace (snd (run int boskos environ passes))) ->
  exists name,
    environ !! "BOSKOS_RESOURCE_NAME" = Some name
    /\ from_script (environ_get environ "BOSKOS_HOST" "boskos") name e.
Proof.
  intros I.
  destruct (run_cases int boskos environ passes)
    as [E X|name E H X|name E H N X|name E H N X].
  - rewrite X in I. destruct I.
  - rewrite X in I. destruct I.
  - exists name. split; [exact E |].
    rewrite X in I. destruct passes; [destruct I |].
    destruct I as [<-|[]]. reflexivity.
  - exists name. split; [exact E |].
    apply heartbeats_from_script in X.
    rewrite List.Forall_forall in X. now apply X.
Qed.

(** C6: every connection is made to the host the environment names in
    [BOSKOS_HOST], and to the default ["boskos"] when it names none. *)
Theorem host_from_environment (int : string -> option Z) (boskos : service)
    (environ : gmap string string)
    (passes conn : nat) (host : string) :
  In (Connect conn host) (trace (snd (run int boskos environ passes))) ->
  (environ !! "BOSKOS_HOST" = None -> host = "boskos")
  /\ (forall v, environ !! "BOSKOS_HOST" = Some v -> host = v).
Proof.
  intros I. destruct (run_from_script _ _ _ _ _ I) as (name & _ & H).
  cbn in H. subst host. unfold environ_get.
  split.
  - now intros ->.
  - now intros v ->.
Qed.

Lemma host_from_environment_both :
  let unset : gmap string string := {["BOSKOS_RESOURCE_NAME" := "gcp-project"]} in
  let set : gmap string string :=
    {["BOSKOS_RESOURCE_NAME" := "gcp-project";
      "BOSKOS_HOST" := "boskos.test-pods.svc.cluster.local"]} in
  (In (Connect 1 "boskos") (trace (snd (run ascii_int always_ok unset 2)))
   /\ unset !! "BOSKOS_HOST" = None
   /\ "boskos" = "boskos")
  /\ (In (Connect 1 "boskos.test-pods.svc.cluster.local")
         (trace (snd (run ascii_int always_ok set 2)))
      /\ set !! "BOSKOS_HOST" = Some "boskos.test-pods.svc.cluster.local"
      /\ "boskos.test-pods.svc.cluster.local" = "boskos.test-pods.svc.cluster.local").
Proof.
  intros unset set.
  assert (I1 : In (Connect 1 "boskos") (trace (snd (run ascii_int always_ok unset 2)))).
  { vm_compute. auto 10. }
  assert (I2 : In (Connect 1 "boskos.test-pods.svc.cluster.local")
                 (trace (snd (run ascii_int always_ok set 2)))).
  { vm_compute. auto 10. }
  assert (E1 : unset !! "BOSKOS_HOST" = None) by reflexivity.
  assert (E2 : set !! "BOSKOS_HOST" = Some "boskos.test-pods.svc.cluster.local")
    by reflexivity.
  split; (split; [assumption | split; [assumption |]]).
  - exact (proj1 (host_from_environment ascii_int always_ok unset 2 1 _ I1) E1).
  - exact (proj2 (host_from_environment ascii_int always_ok set 2 1 _ I2) _ E2).
Defined.

(** ** What a send is *)

(** The url of a send, read back: path [/update], and the three items
    of the query in the order the script gives them. *)
Lemma heartbeat_url_read (name : string) :
  path_of (heartbeat_url name) = "/update"
  /\ query_of (heartbeat_url name)
     = [("name", name); ("state", "busy"); ("owner", "cluster-api-provider-gcp")].
Proof.
  unfold path_of, query_of, heartbeat_url.
  change ("/update?" +:+ ?q) with ("/update" +:+ String "?" q).
  rewrite UrlFacts.partition_at_first by reflexivity.
  cbn [fst snd]. split; [reflexivity |].
  apply UrlFacts.parse_qsl_urlencode.
Qed.

(** On the wire: only the resource name needs escaping. *)
Lemma heartbeat_url_wire (name : string) :
  heartbeat_url name
  = "/update?name=" +:+ UrlLib.quote_plus name
    +:+ "&state=busy&owner=cluster-api-provider-gcp".
Proof. reflexivity. Qed.

(** C4: every send is a POST to the path [/update], and its query
    string, URL-encoded, holds exactly three parameters: [name] (the
    resource name of the environment), [state] with the value [busy],
    and [owner]. *)
Theorem every_send_posts_update (int : string -> option Z) (boskos : service)
    (environ : gmap string string)
    (passes conn : nat) (method url : string) :
  In (Request conn method url) (trace (snd (run int boskos environ passes))) ->
  method = "POST"
  /\ path_of url = "/update"
  /\ exists name owner,
       environ !! "BOSKOS_RESOURCE_NAME" = Some name
       /\ query_of url = [("name", name); ("state", "busy"); ("owner", owner)]
       /\ url = "/update?name=" +:+ UrlLib.quote_plus name
                +:+ "&state=busy&owner=" +:+ UrlLib.quote_plus owner.
Proof.
  intros I. destruct (run_from_script _ _ _ _ _ I) as (name & E & -> & ->).
  destruct (heartbeat_url_read name) as (P & Q).
  split; [reflexivity |]. split; [exact P |].
  exists name, USER. split; [exact E |]. split; [exact Q |].
  apply heartbeat_url_wire.
Qed.

Lemma every_send_posts_update_escaped :
  let environ : gmap string string :=
    {["BOSKOS_RESOURCE_NAME" := "gcp project&state=free"]} in
  let url := "/update?name=gcp+project%26state%3Dfree&state=busy&owner=cluster-api-provider-gcp" in
  In (Request 0 "POST" url) (trace (snd (run ascii_int always_ok environ 1)))
  /\ "POST" = "POST"
  /\ path_of url = "/update"
  /\ exists name owner,
       environ !! "BOSKOS_RESOURCE_NAME" = Some name
       /\ query_of url = [("name", name); ("state", "busy"); ("owner", owner)]
       /\ url = "/update?name=" +:+ UrlLib.quote_plus name
                +:+ "&state=busy&owner=" +:+ UrlLib.quote_plus owner.
Proof.
  intros environ url.
  assert (I : In (Request 0 "POST" url) (trace (snd (run ascii_int always_ok environ 1)))).
  { vm_compute. auto. }
  split; [exact I |].
  exact (every_send_posts_update ascii_int always_ok environ 1 0 "POST" url I).
Defined.

(** C9: the [owner] parameter of every send is the constant
    ["cluster-api-provider-gcp"] of the script, whatever the environment
    holds. *)
Theorem owner_is_the_fixed_user (int : string -> option Z) (boskos : service)
    (environ : gmap string string)
    (passes conn : nat) (method url : string) :
  In (Request conn method url) (trace (snd (run int boskos environ passes))) ->
  assoc "owner" (query_of url) = Some "cluster-api-provider-gcp".
Proof.
  intros I. destruct (run_from_script _ _ _ _ _ I) as (name & _ & _ & ->).
  destruct (heartbeat_url_read name) as (_ & ->). reflexivity.
Qed.

Lemma owner_is_the_fixed_user_despite_environment :
  let environ : gmap string string :=
    {["BOSKOS_RESOURCE_NAME" := "gcp-project"; "USER" := "prow";
      "OWNER" := "somebody-else"; "BOSKOS_HOST" := "boskos.test-pods"]} in
  let url := "/update?name=gcp-project&state=busy&owner=cluster-api-provider-gcp" in
  In (Request 1 "POST" url) (trace (snd (run ascii_int always_ok environ 2)))
  /\ assoc "owner" (query_of url) = Some "cluster-api-provider-gcp".
Proof.
  intros environ url.
  assert (I : In (Request 1 "POST" url) (trace (snd (run ascii_int always_ok environ 2)))).
  { vm_compute. auto 10. }
  split; [exact I |].
  exact (owner_is_the_fixed_user ascii_int always_ok environ 2 1 "POST" url I).
Defined.

(** ** The order of the calls *)

Section Shape.

Ltac at_index i :=
  destruct i as [|[|[|[|[|i]]]]];
  cbn [lookup list_lookup app pass_events last_events Nat.add] in *;
  simplify_eq.

(** A run that makes a call starts by making a connection. *)
Lemma heartbeats_head (boskos : service) (host name : string) conn t res e :
  heartbeats boskos host name conn t res ->
  t !! 0%nat = Some e -> e = Connect conn host.
Proof. destruct 1; intros L; cbn in L; now simplify_eq. Qed.

(** Connections are numbered from the one the run starts with. *)
Lemma heartbeats_conn_ge (boskos : service) (host name : string) conn t res e c :
  heartbeats boskos host name conn t res ->
  In e t -> conn_of e = Some c -> (conn <= c)%nat.
Proof.
  induction 1 as [conn|conn resp t res B Hs H IH|conn resp B Hs|conn x B|conn x B];
    intros I C.
  - destruct I.
  - apply in_app_or in I as [I|I].
    + cbn in I. destruct I as [<-|[<-|[<-|[<-|[<-|[]]]]]]; cbn in C; simplify_eq; lia.
    + specialize (IH I C). lia.
  - cbn in I. destruct I as [<-|[<-|[<-|[]]]]; cbn in C; simplify_eq; lia.
  - cbn in I. destruct I as [<-|[<-|[]]]; cbn in C; simplify_eq; lia.
  - cbn in I. destruct I as [<-|[<-|[<-|[]]]]; cbn in C; simplify_eq; lia.
Qed.

Lemma lookup_In (t : list event) (i : nat) (e : event) :
  t !! i = Some e -> In e t.
Proof. intros L. apply list_elem_of_In. eapply list_elem_of_lookup_2, L. Qed.

(** The second call of a run is the send on that connection. *)
Lemma heartbeats_second (boskos : service) (host name : string) conn t res e :
  heartbeats boskos host name conn t res ->
  t !! 1%nat = Some e -> e = Request conn "POST" (heartbeat_url name).
Proof. destruct 1; intros L; cbn in L; now simplify_eq. Qed.

(** After a 200 the connection is closed, the process sleeps 60
    seconds, and what follows, if anything, is the next connection and
    the send on it. *)
Lemma heartbeats_after_accepted (boskos : service) (host name : string) conn t res i c resp :
  heartbeats boskos host name conn t res ->
  t !! i = Some (Response c resp) -> status resp = 200 ->
  t !! (i + 1)%nat = Some (Close c)
  /\ t !! (i + 2)%nat = Some (Sleep 60)
  /\ (forall e, t !! (i + 3)%nat = Some e -> e = Connect (S c) host)
  /\ (forall e, t !! (i + 4)%nat = Some e ->
                e = Request (S c) "POST" (heartbeat_url name)).
Proof.
  intros H. revert i.
  induction H as [conn|conn r t res B Hs H IH|conn r B Hs|conn x B|conn x B];
    intros i L Hr.
  - discriminate.
  - at_index i.
    + repeat split; intros e.
      * apply (heartbeats_head _ _ _ _ _ _ _ H).
      * apply (heartbeats_second _ _ _ _ _ _ _ H).
    + now apply IH.
  - at_index i; try done.
  - at_index i.
  - at_index i.
Qed.

(** A send is made on the connection opened just before it. *)
Lemma heartbeats_request_after_connect (boskos : service) (host name : string)
    conn t res i c method url :
  heartbeats boskos host name conn t res ->
  t !! i = Some (Request c method url) ->
  exists i', i = S i' /\ t !! i' = Some (Connect c host).
Proof.
  intros H. revert i.
  induction H as [conn|conn r t res B Hs H IH|conn r B Hs|conn x B|conn x B];
    intros i L.
  - discriminate.
  - at_index i.
    + now exists 0%nat.
    + destruct (IH _ L) as (i' & -> & L'). now exists (5 + i')%nat.
  - at_index i. now exists 0%nat.
  - at_index i. now exists 0%nat.
  - at_index i. now exists 0%nat.
Qed.

(** A connection is closed only right after its 200. *)
Lemma heartbeats_close_after_accepted (boskos : service) (host name : string) conn t res i c :
  heartbeats boskos host name conn t res ->
  t !! i = Some (Close c) ->
  exists i' resp,
    i = S i' /\ t !! i' = Some (Response c resp) /\ status resp = 200.
Proof.
  intros H. revert i.
  induction H as [conn|conn r t res B Hs H IH|conn r B Hs|conn x B|conn x B];
    intros i L.
  - discriminate.
  - at_index i.
    + now exists 2%nat, r.
    + destruct (IH _ L) as (i' & r' & -> & L' & Hr). now exists (5 + i')%nat, r'.
  - at_index i.
  - at_index i.
  - at_index i.
Qed.

(** Each connection made is a new one: later in the trace, larger. *)
Lemma heartbeats_connects_increase (boskos : service) (host name : string)
    conn t res i j c1 h1 c2 h2 :
  heartbeats boskos host name conn t res ->
  (i < j)%nat ->
  t !! i = Some (Connect c1 h1) -> t !! j = Some (Connect c2 h2) ->
  (c1 < c2)%nat.
Proof.
  intros H. revert i j.
  induction H as [conn|conn r t res B Hs H IH|conn r B Hs|conn x B|conn x B];
    intros i j Hij Li Lj.
  - discriminate.
  - at_index i.
    + at_index j; try lia.
      pose proof (heartbeats_conn_ge _ _ _ _ _ _ _ c2 H (lookup_In _ _ _ Lj) eq_refl).
      lia.
    + at_index j; try lia. apply (IH i j); [lia | assumption..].
  - at_index i. at_index j; lia.
  - at_index i. at_index j; lia.
  - at_index i. at_index j; lia.
Qed.

(** Between two sends the process sleeps 60 seconds. *)
Lemma heartbeats_sleep_between_sends (boskos : service) (host name : string)
    conn t res i j c1 m1 u1 c2 m2 u2 :
  heartbeats boskos host name conn t res ->
  (i < j)%nat ->
  t !! i = Some (Request c1 m1 u1) -> t !! j = Some (Request c2 m2 u2) ->
  exists k, (i < k < j)%nat /\ t !! k = Some (Sleep 60).
Proof.
  intros H. revert i j.
  induction H as [conn|conn r t res B Hs H IH|conn r B Hs|conn x B|conn x B];
    intros i j Hij Li Lj.
  - discriminate.
  - at_index i.
    + at_index j; try lia. exists 4%nat. split; [lia | reflexivity].
    + at_index j; try lia.
      destruct (IH i j) as (k & Hk & Lk); [lia | assumption.. |].
      exists (5 + k)%nat. split; [lia | exact Lk].
  - at_index i. at_index j; lia.
  - at_index i. at_index j; lia.
  - at_index i. at_index j; lia.
Qed.

(** A response that is not a 200 is the last call of the run: its
    connection is never closed, and the run ends in [sys.exit]. *)
Lemma heartbeats_rejected_last (boskos : service) (host name : string) conn t res c resp :
  heartbeats boskos host name conn t res ->
  In (Response c resp) t -> status resp <> 200 ->
  ~ In (Close c) t
  /\ last t = Some (Response c resp)
  /\ res = SystemExit (invalid_response resp).
Proof.
  induction 1 as [conn|conn r t res B Hs H IH|conn r B Hs|conn x B|conn x B];
    intros I Hr.
  - destruct I.
  - apply in_app_or in I as [I|I].
    + cbn in I. destruct I as [?|[?|[?|[?|[?|[]]]]]]; simplify_eq.
    + destruct (IH I Hr) as (NC & L & R).
      pose proof (heartbeats_conn_ge _ _ _ _ _ _ _ c H I eq_refl) as G.
      repeat split; [| |exact R].
      * intros J. apply in_app_or in J as [J|J]; [|now apply NC].
        cbn in J. destruct J as [?|[?|[?|[?|[?|[]]]]]]; simplify_eq. lia.
      * rewrite last_app, L. reflexivity.
  - cbn in I. destruct I as [?|[?|[?|[]]]]; simplify_eq.
    repeat split.
    intros J. cbn in J. destruct J as [?|[?|[?|[]]]]; simplify_eq.
  - cbn in I. destruct I as [?|[?|[]]]; simplify_eq.
  - cbn in I. destruct I as [?|[?|[?|[]]]]; simplify_eq.
Qed.

End Shape.

(** The trace of any run: at most the making of the first connection,
    when the process has no resource name, a host the constructor
    rejects or a name that does not encode; the heartbeats otherwise. *)
Lemma run_shape (int : string -> option Z) (boskos : service)
    (environ : gmap string string) (passes : nat) :
  (forall i e, trace (snd (run int boskos environ passes)) !! i = Some e ->
               i = 0%nat /\ exists host, e = Connect 0 host)
  \/ exists name,
       heartbeats boskos (environ_get environ "BOSKOS_HOST" "boskos") name 0
         (trace (snd (run int boskos environ passes)))
         (fst (run int boskos environ passes)).
Proof.
  destruct (run_cases int boskos environ passes)
    as [E X|name E H X|name E H N X|name E H N X].
  - left. rewrite X. intros i e L. discriminate L.
  - left. rewrite X. intros i e L. discriminate L.
  - left. rewrite X. intros i e L. destruct passes; [discriminate L |].
    destruct i; [|discriminate L]. injection L as <-. eauto.
  - right. now exists name.
Qed.

(** A trace that short holds none of what the lemmas speak of. *)
Ltac short_trace N :=
  repeat split; intros;
  repeat match goal with
    | I : In _ _ |- _ => apply list_elem_of_In, list_elem_of_lookup_1 in I as (? & I)
    | L : _ !! _ = Some _ |- _ => apply N in L as (? & ? & ?); subst
    end;
  try congruence; try lia.

(** C7: after every send answered with a 200 the process closes the
    connection and then calls [time.sleep(60)], before anything of the
    next pass: the calls that follow the sleep, if any, are the next
    connection and the send on it.  Every sleep is of 60 seconds, and any
    two sends have such a sleep between them. *)
Theorem sleep_after_accepted_send (int : string -> option Z) (boskos : service)
    (environ : gmap string string)
    (passes : nat) :
  let t := trace (snd (run int boskos environ passes)) in
  (forall i conn resp,
     t !! i = Some (Response conn resp) -> status resp = 200 ->
     t !! (i + 1)%nat = Some (Close conn)
     /\ t !! (i + 2)%nat = Some (Sleep 60)
     /\ (forall e, t !! (i + 3)%nat = Some e ->
                   exists host, e = Connect (S conn) host)
     /\ (forall e, t !! (i + 4)%nat = Some e ->
                   exists method url, e = Request (S conn) method url))
  /\ (forall i secs, t !! i = Some (Sleep secs) -> secs = 60)
  /\ (forall i j c1 m1 u1 c2 m2 u2,
        (i < j)%nat ->
        t !! i = Some (Request c1 m1 u1) -> t !! j = Some (Request c2 m2 u2) ->
        exists k, (i < k < j)%nat /\ t !! k = Some (Sleep 60)).
Proof.
  cbn zeta. split; [|split].
  - intros i conn resp L Hr.
    destruct (run_shape int boskos environ passes) as [N|(name & H)].
    { short_trace N. }
    destruct (heartbeats_after_accepted _ _ _ _ _ _ _ _ _ H L Hr)
      as (C & S & N & R).
    repeat split; [exact C | exact S | |]; intros e Le.
    + eexists. now apply N.
    + eexists _, _. now apply R.
  - intros i secs L. apply lookup_In in L.
    destruct (run_from_script _ _ _ _ _ L) as (name & _ & F). exact F.
  - intros i j c1 m1 u1 c2 m2 u2 Hij Li Lj.
    destruct (run_shape int boskos environ passes) as [N|(name & H)].
    { short_trace N. }
    eapply heartbeats_sleep_between_sends; eauto.
Qed.

Example sleep_after_accepted_send_second_pass :
  let t := trace (snd (run ascii_int always_ok {["BOSKOS_RESOURCE_NAME" := "gcp-project"]} 3)) in
  t !! 7%nat = Some (Response 1 ok_response)
  /\ status ok_response = 200
  /\ t !! 8%nat = Some (Close 1)
  /\ t !! 9%nat = Some (Sleep 60)
  /\ t !! 10%nat = Some (Connect 2 "boskos").
Proof.
  intros t.
  assert (L : t !! 7%nat = Some (Response 1 ok_response)) by reflexivity.
  split; [exact L |]. split; [reflexivity |].
  destruct (sleep_after_accepted_send ascii_int always_ok
              {["BOSKOS_RESOURCE_NAME" := "gcp-project"]} 3) as (A & _).
  destruct (A 7%nat 1%nat ok_response L eq_refl) as (C & S & _).
  split; [exact C |]. split; [exact S | reflexivity].
Defined.

(** C8: every send goes over the connection object made just before it
    in the same pass, to the lease-service host; each connection made is
    a new one, so no two sends share a connection; and after a 200 the
    connection is closed before the process sleeps. *)
Theorem fresh_connection_each_pass (int : string -> option Z) (boskos : service)
    (environ : gmap string string)
    (passes : nat) :
  let t := trace (snd (run int boskos environ passes)) in
  let host := environ_get environ "BOSKOS_HOST" "boskos" in
  (forall i conn method url,
     t !! i = Some (Request conn method url) ->
     exists i', i = S i' /\ t !! i' = Some (Connect conn host))
  /\ (forall i j c1 h1 c2 h2,
        (i < j)%nat ->
        t !! i = Some (Connect c1 h1) -> t !! j = Some (Connect c2 h2) ->
        (c1 < c2)%nat)
  /\ (forall i j c1 m1 u1 c2 m2 u2,
        (i < j)%nat ->
        t !! i = Some (Request c1 m1 u1) -> t !! j = Some (Request c2 m2 u2) ->
        c1 <> c2)
  /\ (forall i conn resp,
        t !! i = Some (Response conn resp) -> status resp = 200 ->
        t !! (i + 1)%nat = Some (Close conn)
        /\ exists secs, t !! (i + 2)%nat = Some (Sleep secs)).
Proof.
  cbn zeta.
  destruct (run_shape int boskos environ passes) as [N|(name & H)].
  { short_trace N. }
  assert (R : forall i conn method url,
             trace (snd (run int boskos environ passes)) !! i
             = Some (Request conn method url) ->
             exists i', i = S i'
               /\ trace (snd (run int boskos environ passes)) !! i'
                  = Some (Connect conn (environ_get environ "BOSKOS_HOST" "boskos"))).
  { intros i conn method url L. eapply heartbeats_request_after_connect; eauto. }
  split; [exact R |]. split; [|split].
  - intros i j c1 h1 c2 h2 Hij Li Lj.
    eapply heartbeats_connects_increase; eauto.
  - intros i j c1 m1 u1 c2 m2 u2 Hij Li Lj.
    destruct (R _ _ _ _ Li) as (i' & -> & Li').
    destruct (R _ _ _ _ Lj) as (j' & -> & Lj').
    assert (c1 < c2)%nat; [|lia].
    eapply (heartbeats_connects_increase _ _ _ _ _ _ i' j'); eauto. lia.
  - intros i conn resp L Hr.
    destruct (heartbeats_after_accepted _ _ _ _ _ _ _ _ _ H L Hr) as (C & S & _).
    split; [exact C |]. now exists 60.
Qed.

Example fresh_connection_each_pass_two_sends :
  let environ : gmap string string :=
    {["BOSKOS_RESOURCE_NAME" := "gcp-project"; "BOSKOS_HOST" := "boskos.test-pods"]} in
  let t := trace (snd (run ascii_int always_ok environ 2)) in
  let url := "/update?name=gcp-project&state=busy&owner=cluster-api-provider-gcp" in
  t !! 1%nat = Some (Request 0 "POST" url)
  /\ t !! 6%nat = Some (Request 1 "POST" url)
  /\ (exists i', 6%nat = S i' /\ t !! i' = Some (Connect 1 "boskos.test-pods"))
  /\ 0%nat <> 1%nat.
Proof.
  intros environ t url.
  assert (L1 : t !! 1%nat = Some (Request 0 "POST" url)) by reflexivity.
  assert (L6 : t !! 6%nat = Some (Request 1 "POST" url)) by reflexivity.
  destruct (fresh_connection_each_pass ascii_int always_ok environ 2) as (A & _ & C & _).
  split; [exact L1 |]. split; [exact L6 |]. split.
  - exact (A 6%nat 1%nat "POST" url L6).
  - refine (C 1%nat 6%nat _ _ _ _ _ _ _ L1 L6). lia.
Defined.

(** C10: when a response is not a 200 the process leaves through
    [sys.exit] right after reading it: that response is the last call of
    the run and the connection it came on is never closed.  A close only
    ever follows a 200 on the same connection. *)
Theorem rejected_connection_never_closed (int : string -> option Z) (boskos : service)
    (environ : gmap string string) (passes : nat) :
  let r := fst (run int boskos environ passes) in
  let t := trace (snd (run int boskos environ passes)) in
  (forall conn resp,
     In (Response conn resp) t -> status resp <> 200 ->
     ~ In (Close conn) t
     /\ last t = Some (Response conn resp)
     /\ r = SystemExit (invalid_response resp))
  /\ (forall i conn,
        t !! i = Some (Close conn) ->
        exists i' resp,
          i = S i' /\ t !! i' = Some (Response conn resp) /\ status resp = 200).
Proof.
  cbn zeta.
  destruct (run_shape int boskos environ passes) as [N|(name & H)].
  { short_trace N. }
  split.
  - intros conn resp I Hr. eapply heartbeats_rejected_last; eauto.
  - intros i conn L. eapply heartbeats_close_after_accepted; eauto.
Qed.

Example rejected_connection_never_closed_third_send :
  let environ : gmap string string := {["BOSKOS_RESOURCE_NAME" := "gcp-project"]} in
  let t := trace (snd (run ascii_int (unavailable_at 2) environ 5)) in
  In (Response 2 unavailable) t
  /\ status unavailable <> 200
  /\ ~ In (Close 2) t
  /\ In (Close 1) t
  /\ last t = Some (Response 2 unavailable).
Proof.
  intros environ t.
  assert (I : In (Response 2 unavailable) t) by (vm_compute; auto 20).
  assert (Hr : status unavailable <> 200) by discriminate.
  assert (I1 : In (Close 1) t) by (vm_compute; auto 20).
  destruct (rejected_connection_never_closed ascii_int (unavailable_at 2) environ 5)
    as (A & _).
  destruct (A 2%nat unavailable I Hr) as (NC & L & _).
  repeat split; assumption.
Defined.

(** * Further properties of the script *)

(** ** How a run can end *)

(** The end of the heartbeats, read off their shape: still looping with
    the counter at 0, or stopped at the first connection whose exchange
    did not bring a 200, and then by what came of it.  The sends are one
    per connection. *)
Lemma heartbeats_end (boskos : service) (host name : string)
    (conn : nat) (t : list event) (res : result loop_state) :
  heartbeats boskos host name conn t res ->
  exists n,
    (forall j, (conn <= j < conn + n)%nat -> accepts boskos j)
    /\ match res with
       | Normal st => st = Looping 0 /\ sends t = n
       | SystemExit msg =>
           sends t = S n
           /\ exists resp, boskos (conn + n)%nat = Answer resp
                           /\ status resp <> 200
                           /\ msg = invalid_response resp
       | Raised e =>
           sends t = S n
           /\ (boskos (conn + n)%nat = RequestFails e
               \/ boskos (conn + n)%nat = ResponseFails e)
       end.
Proof.
  induction 1 as [conn|conn resp t res B Hs H IH|conn resp B Hs|conn x B|conn x B].
  - exists 0%nat. split; [intros j Hj; lia | now split].
  - destruct IH as (n & A & E). exists (S n). split.
    + intros j Hj. destruct (decide (j = conn)) as [->|Hne].
      * now exists resp.
      * apply A. lia.
    + replace (conn + S n)%nat with (S conn + n)%nat by lia.
      rewrite sends_app. change (sends (pass_events host name conn resp)) with 1%nat.
      destruct res as [st|msg|e].
      * destruct E as (-> & ->). now split.
      * destruct E as (-> & E). now split.
      * destruct E as (-> & E). now split.
  - exists 0%nat. rewrite Nat.add_0_r. split; [intros j Hj; lia |].
    split; [reflexivity |]. now exists resp.
  - exists 0%nat. rewrite Nat.add_0_r. split; [intros j Hj; lia |].
    split; [reflexivity |]. now left.
  - exists 0%nat. rewrite Nat.add_0_r. split; [intros j Hj; lia |].
    split; [reflexivity |]. now right.
Qed.

(** X1: whatever the environment holds and whatever the service answers,
    the process never exits with status 0: a run that has an exit status
    has status 1, and the loop is never left by its guard. *)
Theorem never_exits_with_success (int : string -> option Z) (boskos : service)
    (environ : gmap string string) (passes : nat) :
  exit_status (fst (run int boskos environ passes)) <> Some 0
  /\ (forall count, fst (run int boskos environ passes) <> Normal (Done count))
  /\ (forall code, exit_status (fst (run int boskos environ passes)) = Some code ->
                   code = 1).
Proof.
  assert (D : forall count, fst (run int boskos environ passes) <> Normal (Done count)).
  { intros count R.
    pose proof (run_normal_looping int boskos environ passes (Done count) R).
    discriminate. }
  split; [|split; [exact D |]].
  - intros X. destruct (fst (run int boskos environ passes)) as [[count|count]|msg|e];
      cbn in X; try discriminate. now apply (D count).
  - intros code X.
    destruct (fst (run int boskos environ passes)) as [[count|count]|msg|e];
      cbn in X; try congruence. exfalso. now apply (D count).
Qed.

Example never_exits_with_success_rejected :
  exit_status (fst (run ascii_int (unavailable_at 0)
                      {["BOSKOS_RESOURCE_NAME" := "gcp-project"]} 1))
  = Some 1
  /\ 1 = 1.
Proof.
  assert (X : exit_status (fst (run ascii_int (unavailable_at 0)
                                  {["BOSKOS_RESOURCE_NAME" := "gcp-project"]} 1))
              = Some 1) by reflexivity.
  split; [exact X |].
  exact (proj2 (proj2 (never_exits_with_success ascii_int (unavailable_at 0)
                         {["BOSKOS_RESOURCE_NAME" := "gcp-project"]} 1)) 1 X).
Defined.

(** X2: every exit has a cause, and it is one of six.  A run with an
    exit status found no resource name in the environment and made no
    call; or the constructor rejected the host, again before any call;
    or the resource name did not encode, after the first connection
    object was made and before any send; or the run stopped at the first
    connection whose exchange did not bring a 200, after one send per
    connection: through [sys.exit] with the diagnostic of the response
    when its status was another one, through the exception that
    [conn.request] or [conn.getresponse] raised otherwise. *)
Theorem exit_has_a_cause (int : string -> option Z) (boskos : service)
    (environ : gmap string string) (passes : nat) (code : Z) :
  let r := fst (run int boskos environ passes) in
  let t := trace (snd (run int boskos environ passes)) in
  let host := environ_get environ "BOSKOS_HOST" "boskos" in
  exit_status r = Some code ->
  (environ !! "BOSKOS_RESOURCE_NAME" = None
   /\ r = Raised (KeyError "BOSKOS_RESOURCE_NAME") /\ t = [])
  \/ exists name,
       environ !! "BOSKOS_RESOURCE_NAME" = Some name
       /\ ((host_accepted int host = false /\ r = Raised InvalidURL /\ t = [])
           \/ (host_accepted int host = true /\ encodable name = false
               /\ r = Raised UnicodeEncodeError /\ t = [Connect 0 host])
           \/ (host_accepted int host = true /\ encodable name = true
               /\ exists n,
                    (forall j, (j < n)%nat -> accepts boskos j)
                    /\ sends t = S n
                    /\ ((exists resp, boskos n = Answer resp /\ status resp <> 200
                                      /\ r = SystemExit (invalid_response resp))
                        \/ (exists e, boskos n = RequestFails e /\ r = Raised e)
                        \/ (exists e, boskos n = ResponseFails e /\ r = Raised e)))).
Proof.
  cbn zeta. intros X.
  destruct (run_cases int boskos environ passes)
    as [E R|name E H R|name E H N R|name E H N R].
  - left. rewrite R. now repeat split.
  - right. exists name. split; [exact E |]. left.
    rewrite R in *. destruct passes; [discriminate X |]. now repeat split.
  - right. exists name. split; [exact E |]. right. left.
    rewrite R in *. destruct passes; [discriminate X |]. now repeat split.
  - right. exists name. split; [exact E |]. right. right.
    split; [exact H |]. split; [exact N |].
    destruct (heartbeats_end _ _ _ _ _ _ R) as (n & A & F).
    exists n. split; [intros j Hj; apply A; lia |].
    cbn [Nat.add] in F.
    destruct (fst (run int boskos environ passes)) as [st|msg|e].
    + destruct F as (-> & _). discriminate.
    + destruct F as (S & resp & B & Hs & ->). split; [exact S |].
      left. now exists resp.
    + destruct F as (S & [B|B]); (split; [exact S |]); right; eauto.
Qed.

Lemma exit_has_a_cause_bad_port :
  let environ : gmap string string :=
    {["BOSKOS_RESOURCE_NAME" := "gcp-project"; "BOSKOS_HOST" := "boskos:abc"]} in
  exit_status (fst (run ascii_int always_ok environ 4)) = Some 1
  /\ host_accepted ascii_int "boskos:abc" = false
  /\ fst (run ascii_int always_ok environ 4) = Raised InvalidURL
  /\ trace (snd (run ascii_int always_ok environ 4)) = [].
Proof.
  intros environ.
  assert (X : exit_status (fst (run ascii_int always_ok environ 4)) = Some 1)
    by reflexivity.
  split; [exact X |].
  destruct (exit_has_a_cause ascii_int always_ok environ 4 1 X)
    as [(E & _)|(name & _ & [C|[(H & _)|(H & _)]])].
  - discriminate E.
  - exact C.
  - discriminate H.
  - discriminate H.
Defined.

(** ** Transport failures *)

(** What the service answered is what the process read. *)
Lemma heartbeats_response_answer (boskos : service) (host name : string)
    (conn : nat) (t : list event) (res : result loop_state) (c : nat)
    (resp : HTTPResponse) :
  heartbeats boskos host name conn t res ->
  In (Response c resp) t -> boskos c = Answer resp.
Proof.
  induction 1 as [conn|conn r t res B Hs H IH|conn r B Hs|conn x B|conn x B]; intros I.
  - destruct I.
  - apply in_app_or in I as [I|I]; [|now apply IH].
    cbn in I. destruct I as [?|[?|[?|[?|[?|[]]]]]]; now simplify_eq.
  - cbn in I. destruct I as [?|[?|[?|[]]]]; now simplify_eq.
  - cbn in I. destruct I as [?|[?|[]]]; simplify_eq.
  - cbn in I. destruct I as [?|[?|[?|[]]]]; simplify_eq.
Qed.

(** The loop at the first connection that fails in transport. *)
Lemma while_loop_transport_failure (int : string -> option Z) (boskos : service)
    (host name : string) (n m : nat) (e : exception) (p : process) :
  host_accepted int host = true -> encodable name = true ->
  (forall j, (j < n)%nat -> accepts boskos (connections p + j)) ->
  boskos (connections p + n)%nat = RequestFails e
  \/ boskos (connections p + n)%nat = ResponseFails e ->
  exists t,
    while_loop int boskos (n + S m) host name 0 p
    = (Raised e,
       extend p (t ++ last_events host name (connections p + n)
                        (boskos (connections p + n)%nat)) (S n))
    /\ sends t = n.
Proof.
  intros H N A B.
  destruct (while_loop_accepted int boskos host name H N n (S m) p A) as (t & R & Ht).
  exists t. split; [|exact Ht].
  rewrite R, while_loop_step by assumption. cbn zeta.
  unfold extend at 1 3 5. cbn [connections].
  destruct B as [B|B]; rewrite !B, extend_extend, Nat.add_1_r; reflexivity.
Qed.

(** X4: a failure of the transport is not caught and not retried.  With
    a host the constructor takes and a name that encodes, if all sends
    before the k-th got a 200 and the k-th request, or the reading of its
    response, raises an exception, then the process, given at least k
    passes, has made exactly k sends; its last call is that request, or
    the reading that raised; it read no response on that connection and
    never closed it; and it ends with status 1 on that very exception,
    without the diagnostic of [sys.exit]. *)
Theorem transport_failure_is_fatal (int : string -> option Z) (boskos : service)
    (environ : gmap string string) (name : string) (k passes : nat) (e : exception) :
  environ !! "BOSKOS_RESOURCE_NAME" = Some name ->
  host_accepted int (environ_get environ "BOSKOS_HOST" "boskos") = true ->
  encodable name = true ->
  (1 <= k <= passes)%nat ->
  (forall j, (j < k - 1)%nat -> accepts boskos j) ->
  boskos (k - 1)%nat = RequestFails e \/ boskos (k - 1)%nat = ResponseFails e ->
  let r := fst (run int boskos environ passes) in
  let t := trace (snd (run int boskos environ passes)) in
  sends t = k
  /\ (boskos (k - 1)%nat = RequestFails e ->
      last t = Some (Request (k - 1) "POST" (heartbeat_url name)))
  /\ (boskos (k - 1)%nat = ResponseFails e ->
      last t = Some (NoResponse (k - 1) e))
  /\ (forall resp, ~ In (Response (k - 1) resp) t)
  /\ ~ In (Close (k - 1)) t
  /\ r = Raised e
  /\ exit_status r = Some 1
  /\ diagnostic r = None.
Proof.
  intros E H N K A B. cbn zeta.
  pose proof (run_heartbeats int boskos environ name passes E H N) as S.
  assert (NR : forall resp,
             ~ In (Response (k - 1) resp)
                  (trace (snd (run int boskos environ passes)))).
  { intros resp I. apply (heartbeats_response_answer _ _ _ _ _ _ _ _ S) in I.
    destruct B as [B|B]; congruence. }
  assert (NC : ~ In (Close (k - 1)) (trace (snd (run int boskos environ passes)))).
  { intros I. apply list_elem_of_In, list_elem_of_lookup_1 in I as (i & L).
    destruct (heartbeats_close_after_accepted _ _ _ _ _ _ _ _ S L)
      as (i' & resp & _ & L' & _).
    apply (NR resp). eapply lookup_In, L'. }
  revert NR NC. clear S.
  rewrite (run_configured int boskos environ name) by exact E.
  destruct (while_loop_transport_failure int boskos
              (environ_get environ "BOSKOS_HOST" "boskos") name
              (k - 1) (passes - k) e start) as (t & R & Ht); auto.
  replace (k - 1 + S (passes - k))%nat with passes in R by lia.
  rewrite R. cbn [fst snd extend trace start connections app Nat.add].
  intros NR NC. repeat split; try assumption.
  - rewrite sends_app, Ht. destruct B as [-> | ->]; cbn; lia.
  - intros ->. unfold last_events. rewrite app_nil_r.
    change [Connect (k - 1) (environ_get environ "BOSKOS_HOST" "boskos");
            Request (k - 1) "POST" (heartbeat_url name)]
      with ([Connect (k - 1) (environ_get environ "BOSKOS_HOST" "boskos")]
            ++ [Request (k - 1) "POST" (heartbeat_url name)]).
    rewrite app_assoc. apply last_snoc.
  - intros ->. unfold last_events. rewrite app_assoc. apply last_snoc.
Qed.

Lemma transport_failure_is_fatal_second_send :
  let boskos : service :=
    fun conn => if (conn =? 1)%nat then ResponseFails (Error "TimeoutError")
                else Answer ok_response in
  let environ : gmap string string := {["BOSKOS_RESOURCE_NAME" := "gcp-project"]} in
  let r := fst (run ascii_int boskos environ 180) in
  let t := trace (snd (run ascii_int boskos environ 180)) in
  (host_accepted ascii_int (environ_get environ "BOSKOS_HOST" "boskos") = true
   /\ encodable "gcp-project" = true)
  /\ sends t = 2%nat
  /\ (boskos 1%nat = RequestFails (Error "TimeoutError") ->
      last t = Some (Request 1 "POST" (heartbeat_url "gcp-project")))
  /\ (boskos 1%nat = ResponseFails (Error "TimeoutError") ->
      last t = Some (NoResponse 1 (Error "TimeoutError")))
  /\ (forall resp, ~ In (Response 1 resp) t)
  /\ ~ In (Close 1) t
  /\ r = Raised (Error "TimeoutError")
  /\ exit_status r = Some 1
  /\ diagnostic r = None.
Proof.
  intros boskos environ.
  split; [split; reflexivity |].
  apply (transport_failure_is_fatal ascii_int boskos environ "gcp-project" 2 180
           (Error "TimeoutError")).
  - reflexivity.
  - reflexivity.
  - reflexivity.
  - lia.
  - intros j Hj. exists ok_response.
    destruct j as [|j]; [split; reflexivity | simpl in Hj; lia].
  - right. reflexivity.
Defined.

(** ** Going on only while accepted *)

Lemma heartbeats_request_needs_accepted (boskos : service) (host name : string)
    (conn : nat) (t : list event) (res : result loop_state)
    (c : nat) (method url : string) :
  heartbeats boskos host name conn t res ->
  In (Request c method url) t ->
  forall j, (conn <= j < c)%nat -> accepts boskos j.
Proof.
  induction 1 as [conn|conn r t res B Hs H IH|conn r B Hs|conn x B|conn x B];
    intros I j Hj.
  - destruct I.
  - apply in_app_or in I as [I|I].
    + cbn in I. destruct I as [?|[?|[?|[?|[?|[]]]]]]; simplify_eq. lia.
    + destruct (decide (j = conn)) as [->|Hne]; [now exists r |].
      apply (IH I). lia.
  - cbn in I. destruct I as [?|[?|[?|[]]]]; simplify_eq. lia.
  - cbn in I. destruct I as [?|[?|[]]]; simplify_eq. lia.
  - cbn in I. destruct I as [?|[?|[?|[]]]]; simplify_eq. lia.
Qed.

(** X5: the process sends again only after a 200.  A send on the
    connection numbered c is in the trace only if the service answered
    a 200 on every connection before it; so after a response that is not
    a 200, or a failed request, no send follows, however many passes the
    loop is given. *)
Theorem send_only_after_accepted (int : string -> option Z) (boskos : service)
    (environ : gmap string string) (passes c : nat) (method url : string) :
  In (Request c method url) (trace (snd (run int boskos environ passes))) ->
  forall j, (j < c)%nat -> accepts boskos j.
Proof.
  intros I j Hj.
  destruct (run_shape int boskos environ passes) as [N|(name & H)].
  { short_trace N. }
  apply (heartbeats_request_needs_accepted _ _ _ _ _ _ _ _ _ H I). lia.
Qed.

Lemma send_only_after_accepted_third_send :
  let environ : gmap string string := {["BOSKOS_RESOURCE_NAME" := "gcp-project"]} in
  In (Request 2 "POST" (heartbeat_url "gcp-project"))
     (trace (snd (run ascii_int (unavailable_at 2) environ 5)))
  /\ accepts (unavailable_at 2) 1.
Proof.
  intros environ.
  assert (I : In (Request 2 "POST" (heartbeat_url "gcp-project"))
                 (trace (snd (run ascii_int (unavailable_at 2) environ 5)))).
  { vm_compute. auto 20. }
  split; [exact I |].
  apply (send_only_after_accepted ascii_int (unavailable_at 2) environ 5 2 _ _ I 1%nat).
  lia.
Defined.

(** ** Counting the calls of a run *)

Lemma slept_app (t1 t2 : list event) : slept (t1 ++ t2) = slept t1 + slept t2.
Proof.
  induction t1 as [|e t1 IH]; [reflexivity |].
  destruct e; cbn [slept app]; rewrite IH; lia.
Qed.

Lemma counts_app (t1 t2 : list event) :
  connects (t1 ++ t2) = (connects t1 + connects t2)%nat
  /\ closes (t1 ++ t2) = (closes t1 + closes t2)%nat
  /\ sleeps (t1 ++ t2) = (sleeps t1 + sleeps t2)%nat.
Proof.
  unfold connects, closes, sleeps.
  now rewrite !List.filter_app, !length_app.
Qed.

Lemma heartbeats_counts (boskos : service) (host name : string)
    (conn : nat) (t : list event) (res : result loop_state) :
  heartbeats boskos host name conn t res ->
  connects t = sends t
  /\ closes t = sleeps t
  /\ slept t = 60 * Z.of_nat (sleeps t)
  /\ sends t = (closes t + match res with Normal _ => 0 | _ => 1 end)%nat.
Proof.
  induction 1 as [conn|conn r t res B Hs H IH|conn r B Hs|conn x B|conn x B];
    try (cbn; repeat split; lia).
  destruct IH as (C & S & Z & L).
  destruct (counts_app (pass_events host name conn r) t) as (-> & -> & ->).
  rewrite sends_app, slept_app, C, S, Z, L.
  change (connects (pass_events host name conn r)) with 1%nat.
  change (closes (pass_events host name conn r)) with 1%nat.
  change (sleeps (pass_events host name conn r)) with 1%nat.
  change (sends (pass_events host name conn r)) with 1%nat.
  change (slept (pass_events host name conn r)) with 60.
  repeat split; lia.
Qed.

(** A pass makes one connection and one send, and no pass more. *)
Lemma while_loop_sends (int : string -> option Z) (boskos : service)
    (host name : string) (passes : nat) (p : process) :
  host_accepted int host = true -> encodable name = true ->
  exists t,
    snd (while_loop int boskos passes host name 0 p) = extend p t (sends t)
    /\ (sends t <= passes)%nat.
Proof.
  intros H N. revert p. induction passes as [|passes IH]; intros p.
  - exists []. split; [|cbn; lia]. cbn [while_loop]. cbn. now rewrite extend_nil.
  - rewrite while_loop_step by assumption. cbn zeta.
    destruct (boskos (connections p)) as [resp|e|e].
    + destruct (status resp =? 200).
      * destruct (IH (extend p (pass_events host name (connections p) resp) 1))
          as (t & -> & L).
        exists (pass_events host name (connections p) resp ++ t).
        rewrite extend_extend, sends_app. split; [reflexivity |].
        change (sends (pass_events host name (connections p) resp)) with 1%nat. lia.
      * exists (last_events host name (connections p) (Answer resp)).
        split; [reflexivity | cbn; lia].
    + exists (last_events host name (connections p) (RequestFails e)).
      split; [reflexivity | cbn; lia].
    + exists (last_events host name (connections p) (ResponseFails e)).
      split; [reflexivity | cbn; lia].
Qed.

(** X6: the books of a run balance.  In every run the connections made
    are the connection objects counted, and never more than the passes;
    the sends are the connections, or one fewer when the resource name
    does not encode; there are as many sleeps as closes, each of 60
    seconds; and the closes are the connections while the loop is going,
    one fewer once the process has failed after making a connection: at
    most one connection, the last, is left unclosed. *)
Theorem calls_balance (int : string -> option Z) (boskos : service)
    (environ : gmap string string) (passes : nat) :
  let r := fst (run int boskos environ passes) in
  let p := snd (run int boskos environ passes) in
  connects (trace p) = connections p
  /\ (connects (trace p) <= passes)%nat
  /\ (sends (trace p) <= connects (trace p) <= sends (trace p) + 1)%nat
  /\ ((forall name, environ !! "BOSKOS_RESOURCE_NAME" = Some name ->
                    encodable name = true) ->
      sends (trace p) = connects (trace p))
  /\ sleeps (trace p) = closes (trace p)
  /\ slept (trace p) = 60 * Z.of_nat (closes (trace p))
  /\ (closes (trace p) <= sends (trace p))%nat
  /\ (closes (trace p) <= connects (trace p) <= closes (trace p) + 1)%nat
  /\ (exit_status r = None -> connects (trace p) = closes (trace p)).
Proof.
  cbn zeta.
  destruct (run_cases int boskos environ passes)
    as [E R|name E H R|name E H N R|name E H N R].
  - rewrite R. cbn. repeat split; lia.
  - rewrite R. cbn. repeat split; lia.
  - rewrite R. destruct passes; cbn; repeat split; try lia; try discriminate.
    intros X. specialize (X name E). congruence.
  - destruct (heartbeats_counts _ _ _ _ _ _ R) as (C & S & Z & L).
    assert (X : exit_status (fst (run int boskos environ passes)) = None ->
                sends (trace (snd (run int boskos environ passes)))
                = closes (trace (snd (run int boskos environ passes)))).
    { intros X. rewrite L.
      destruct (fst (run int boskos environ passes)) as [st|msg|e];
        [lia | discriminate | discriminate]. }
    assert (B : (closes (trace (snd (run int boskos environ passes)))
                 <= sends (trace (snd (run int boskos environ passes)))
                 <= closes (trace (snd (run int boskos environ passes))) + 1)%nat).
    { rewrite L. destruct (fst (run int boskos environ passes)); lia. }
    clear L. revert C S Z X B.
    rewrite (run_configured int boskos environ name) by exact E.
    destruct (while_loop_sends int boskos (environ_get environ "BOSKOS_HOST" "boskos")
                name passes start H N) as (t & -> & Hp).
    cbn [extend trace connections start app Nat.add fst snd].
    intros C S Z X B. rewrite S in *.
    repeat split; try assumption; try lia.
    intros Y. specialize (X Y). lia.
Qed.

Example calls_balance_unencodable :
  let environ : gmap string string :=
    {["BOSKOS_RESOURCE_NAME" := String "255" "gcp"]} in
  let p := snd (run ascii_int always_ok environ 5) in
  connects (trace p) = 1%nat /\ sends (trace p) = 0%nat
  /\ connects (trace p) = connections p
  /\ (sends (trace p) <= connects (trace p) <= sends (trace p) + 1)%nat.
Proof.
  intros environ p. split; [reflexivity |]. split; [reflexivity |].
  destruct (calls_balance ascii_int always_ok environ 5) as (C & _ & B & _).
  split; [exact C | exact B].
Defined.

(** ** The environment *)

(** X7: of the environment the process reads the two variables
    [BOSKOS_HOST] and [BOSKOS_RESOURCE_NAME] and nothing else: two
    environments that agree on these two give the same run, call for
    call. *)
Theorem only_two_variables_matter (int : string -> option Z) (boskos : service)
    (environ environ' : gmap string string) (passes : nat) :
  environ !! "BOSKOS_HOST" = environ' !! "BOSKOS_HOST" ->
  environ !! "BOSKOS_RESOURCE_NAME" = environ' !! "BOSKOS_RESOURCE_NAME" ->
  run int boskos environ passes = run int boskos environ' passes.
Proof.
  intros H N. unfold run, main, environ_get, environ_getitem, bind.
  now rewrite H, N.
Qed.

Lemma only_two_variables_matter_user_home :
  let environ : gmap string string := {["BOSKOS_RESOURCE_NAME" := "gcp-project"]} in
  let environ' : gmap string string :=
    {["BOSKOS_RESOURCE_NAME" := "gcp-project"; "USER" := "prow"; "HOME" := "/root"]} in
  environ <> environ'
  /\ run ascii_int always_ok environ 3 = run ascii_int always_ok environ' 3.
Proof.
  intros environ environ'. split.
  - intros X. assert (L : environ !! "USER" = environ' !! "USER") by now rewrite X.
    discriminate L.
  - apply (only_two_variables_matter ascii_int always_ok environ environ' 3); reflexivity.
Defined.

(** ** The request target *)

Lemma all_chars_append (f : ascii -> bool) (a b : string) :
  all_chars f (a +:+ b) = all_chars f a && all_chars f b.
Proof.
  induction a as [|c a IH]; cbn [all_chars String.append]; [reflexivity |].
  now rewrite IH, andb_assoc.
Qed.

Lemma string_length_append (a b : string) :
  String.length (a +:+ b) = (String.length a + String.length b)%nat.
Proof.
  induction a as [|c a IH]; cbn [String.length String.append]; [reflexivity |].
  now rewrite IH.
Qed.

(** One byte, escaped: made of url characters, one to three of them,
    and the byte itself exactly when it is a safe one. *)
Lemma plus_escape_byte (c : ascii) :
  all_chars url_char (UrlLib.plus_escape c) = true
  /\ (1 <= String.length (UrlLib.plus_escape c) <= 3)%nat
  /\ (safe_char c = true -> UrlLib.plus_escape c = String c EmptyString)
  /\ (safe_char c = false ->
      UrlLib.plus_escape c = "+"
      \/ exists h l, UrlLib.plus_escape c = String "%" (String h (String l EmptyString))).
Proof.
  destruct c as [[] [] [] [] [] [] [] []];
    (split; [reflexivity |]); (split; [cbn; lia |]);
    split; intros X; vm_compute in X; try discriminate X;
    solve [reflexivity | left; reflexivity | right; eexists _, _; reflexivity].
Qed.

Lemma quote_plus_chars (s : string) :
  all_chars url_char (UrlLib.quote_plus s) = true.
Proof.
  rewrite UrlFacts.quote_plus_escape_all.
  induction s as [|c s IH]; [reflexivity |].
  cbn [UrlLib.escape_all]. rewrite all_chars_append, IH.
  now destruct (plus_escape_byte c) as (-> & _).
Qed.

Lemma quote_plus_length (s : string) :
  (String.length s <= String.length (UrlLib.quote_plus s) <= 3 * String.length s)%nat.
Proof.
  rewrite UrlFacts.quote_plus_escape_all.
  induction s as [|c s IH]; [cbn; lia |].
  cbn [UrlLib.escape_all String.length]. rewrite string_length_append.
  destruct (plus_escape_byte c) as (_ & L & _). lia.
Qed.

(** A string is left as it is exactly when all its bytes are safe. *)
Lemma quote_plus_fixed (s : string) :
  UrlLib.quote_plus s = s <-> all_chars safe_char s = true.
Proof.
  split.
  - induction s as [|c s IH]; [reflexivity |].
    intros Q. cbn [all_chars].
    destruct (safe_char c) eqn:Sc.
    + cbn [andb]. apply IH.
      rewrite UrlFacts.quote_plus_escape_all in *. cbn [UrlLib.escape_all] in Q.
      destruct (plus_escape_byte c) as (_ & _ & F & _).
      rewrite (F Sc) in Q. cbn [String.append] in Q. now injection Q.
    + exfalso.
      pose proof (quote_plus_length s) as L.
      rewrite UrlFacts.quote_plus_escape_all in *. cbn [UrlLib.escape_all] in Q.
      destruct (plus_escape_byte c) as (_ & _ & _ & F).
      destruct (F Sc) as [P|(h & l & P)]; rewrite P in Q; cbn [String.append] in Q.
      * injection Q as Q _. subst c. vm_compute in P. discriminate P.
      * injection Q as _ Q. apply (f_equal String.length) in Q.
        cbn [String.length] in Q. lia.
  - intros A. rewrite UrlFacts.quote_plus_escape_all.
    induction s as [|c s IH]; [reflexivity |].
    cbn [all_chars] in A. apply andb_true_iff in A as (Sc & A).
    cbn [UrlLib.escape_all].
    destruct (plus_escape_byte c) as (_ & _ & F & _).
    rewrite (F Sc), (IH A). reflexivity.
Qed.

(** X8: the target of every send is made of url characters only: the
    unreserved letters, digits and [_.-~], the escape marks [%] and [+],
    and the separators [/ ? & =].  Whatever bytes the resource name
    holds, no space, control character or other raw byte reaches the
    request line. *)
Theorem request_target_is_clean (int : string -> option Z) (boskos : service)
    (environ : gmap string string)
    (passes conn : nat) (method url : string) :
  In (Request conn method url) (trace (snd (run int boskos environ passes))) ->
  all_chars url_char url = true.
Proof.
  intros I. destruct (run_from_script _ _ _ _ _ I) as (name & _ & _ & ->).
  rewrite heartbeat_url_wire, !all_chars_append, quote_plus_chars. reflexivity.
Qed.

Lemma request_target_is_clean_newline :
  let environ : gmap string string :=
    {["BOSKOS_RESOURCE_NAME" := String "010" "gcp project HTTP/1.1"]} in
  let url := "/update?name=%0Agcp+project+HTTP%2F1.1&state=busy&owner=cluster-api-provider-gcp" in
  In (Request 0 "POST" url) (trace (snd (run ascii_int always_ok environ 1)))
  /\ all_chars url_char url = true.
Proof.
  intros environ url.
  assert (I : In (Request 0 "POST" url) (trace (snd (run ascii_int always_ok environ 1)))).
  { vm_compute. auto. }
  split; [exact I |].
  exact (request_target_is_clean ascii_int always_ok environ 1 0 "POST" url I).
Defined.

Lemma append_cancel_r (a b s : string) : a +:+ s = b +:+ s -> a = b.
Proof.
  revert b. induction a as [|c a IH]; intros [|d b] Q; cbn [String.append] in Q.
  - reflexivity.
  - apply (f_equal String.length) in Q. cbn [String.length] in Q.
    rewrite string_length_append in Q. lia.
  - apply (f_equal String.length) in Q. cbn [String.length] in Q.
    rewrite string_length_append in Q. lia.
  - injection Q as -> Q. now rewrite (IH b Q).
Qed.

(** X9: the resource name goes into the target as it is exactly when
    all its bytes are safe ones (letters, digits, [_.-~]): every send
    has the target [/update?name=<name>&state=busy&owner=cluster-api-provider-gcp]
    if the name is made of safe bytes, and only then. *)
Theorem safe_name_sent_verbatim (int : string -> option Z) (boskos : service)
    (environ : gmap string string)
    (passes conn : nat) (method url name : string) :
  environ !! "BOSKOS_RESOURCE_NAME" = Some name ->
  In (Request conn method url) (trace (snd (run int boskos environ passes))) ->
  url = "/update?name=" +:+ name +:+ "&state=busy&owner=cluster-api-provider-gcp"
  <-> all_chars safe_char name = true.
Proof.
  intros E I. destruct (run_from_script _ _ _ _ _ I) as (name' & E' & _ & ->).
  assert (name' = name) as -> by congruence.
  rewrite heartbeat_url_wire, <- quote_plus_fixed. split.
  - intros Q. cbn [String.append] in Q.
    repeat (injection Q as Q).
    now apply append_cancel_r in Q.
  - now intros ->.
Qed.

Lemma safe_name_sent_verbatim_gcp_project :
  let environ : gmap string string := {["BOSKOS_RESOURCE_NAME" := "gcp-project_01.a"]} in
  let url := "/update?name=gcp-project_01.a&state=busy&owner=cluster-api-provider-gcp" in
  environ !! "BOSKOS_RESOURCE_NAME" = Some "gcp-project_01.a"
  /\ In (Request 0 "POST" url) (trace (snd (run ascii_int always_ok environ 1)))
  /\ all_chars safe_char "gcp-project_01.a" = true.
Proof.
  intros environ url.
  assert (E : environ !! "BOSKOS_RESOURCE_NAME" = Some "gcp-project_01.a")
    by reflexivity.
  assert (I : In (Request 0 "POST" url) (trace (snd (run ascii_int always_ok environ 1)))).
  { vm_compute. auto. }
  split; [exact E |]. split; [exact I |].
  apply (safe_name_sent_verbatim ascii_int always_ok environ 1 0 "POST" url "gcp-project_01.a" E I).
  reflexivity.
Defined.

(** X10: the target tells the resource.  If a send of one run and a
    send of another have the same target, the two environments name the
    same resource: the escaping never maps two names to one target. *)
Theorem target_determines_resource (int : string -> option Z) (boskos boskos' : service)
    (environ environ' : gmap string string) (passes passes' conn conn' : nat)
    (method method' url : string) :
  In (Request conn method url) (trace (snd (run int boskos environ passes))) ->
  In (Request conn' method' url) (trace (snd (run int boskos' environ' passes'))) ->
  environ !! "BOSKOS_RESOURCE_NAME" = environ' !! "BOSKOS_RESOURCE_NAME".
Proof.
  intros I I'.
  destruct (run_from_script _ _ _ _ _ I) as (name & -> & _ & U).
  destruct (run_from_script _ _ _ _ _ I') as (name' & -> & _ & U').
  pose proof (proj2 (heartbeat_url_read name)) as Q.
  pose proof (proj2 (heartbeat_url_read name')) as Q'.
  rewrite <- U in Q. rewrite <- U' in Q'. congruence.
Qed.

Lemma target_determines_resource_same_name :
  let environ : gmap string string := {["BOSKOS_RESOURCE_NAME" := "a b"]} in
  let environ' : gmap string string :=
    {["BOSKOS_RESOURCE_NAME" := "a b"; "BOSKOS_HOST" := "boskos.test-pods"]} in
  let url := "/update?name=a+b&state=busy&owner=cluster-api-provider-gcp" in
  In (Request 0 "POST" url) (trace (snd (run ascii_int always_ok environ 1)))
  /\ In (Request 1 "POST" url) (trace (snd (run ascii_int (unavailable_at 1) environ' 2)))
  /\ environ !! "BOSKOS_RESOURCE_NAME" = environ' !! "BOSKOS_RESOURCE_NAME".
Proof.
  intros environ environ' url.
  assert (I : In (Request 0 "POST" url) (trace (snd (run ascii_int always_ok environ 1)))).
  { vm_compute. auto. }
  assert (I' : In (Request 1 "POST" url)
                  (trace (snd (run ascii_int (unavailable_at 1) environ' 2)))).
  { vm_compute. auto 10. }
  split; [exact I |]. split; [exact I' |].
  exact (target_determines_resource ascii_int always_ok (unavailable_at 1) environ environ'
           1 2 0 1 "POST" "POST" url I I').
Defined.

(** X11: the length of the target is bounded by the length of the
    resource name: 55 bytes for the fixed parts, and for the name
    between one and three bytes for each of its bytes. *)
Theorem request_target_length (int : string -> option Z) (boskos : service)
    (environ : gmap string string)
    (passes conn : nat) (method url name : string) :
  environ !! "BOSKOS_RESOURCE_NAME" = Some name ->
  In (Request conn method url) (trace (snd (run int boskos environ passes))) ->
  (55 + String.length name <= String.length url <= 55 + 3 * String.length name)%nat.
Proof.
  intros E I. destruct (run_from_script _ _ _ _ _ I) as (name' & E' & _ & ->).
  assert (name' = name) as -> by congruence.
  rewrite heartbeat_url_wire, !string_length_append.
  pose proof (quote_plus_length name) as L.
  cbn [String.length]. lia.
Qed.

Lemma request_target_length_escaped :
  let environ : gmap string string := {["BOSKOS_RESOURCE_NAME" := "a/b c"]} in
  let url := "/update?name=a%2Fb+c&state=busy&owner=cluster-api-provider-gcp" in
  environ !! "BOSKOS_RESOURCE_NAME" = Some "a/b c"
  /\ In (Request 0 "POST" url) (trace (snd (run ascii_int always_ok environ 1)))
  /\ (55 + 5 <= String.length url <= 55 + 3 * 5)%nat.
Proof.
  intros environ url.
  assert (E : environ !! "BOSKOS_RESOURCE_NAME" = Some "a/b c") by reflexivity.
  assert (I : In (Request 0 "POST" url) (trace (snd (run ascii_int always_ok environ 1)))).
  { vm_compute. auto. }
  split; [exact E |]. split; [exact I |].
  exact (request_target_length ascii_int always_ok environ 1 0 "POST" url "a/b c" E I).
Defined.
